(** * Tf utility layer (tglobal.cpp): xorshift generator, ranged sampler and
      the block-framed LZ4 stream codec.

    The development is a shallow embedding of [src/src/tglobal.cpp].
    C++ [int] and [quint32] values are integers in [Z] whose wrap-around is
    written out; byte buffers are [list byte]; module-level generator state
    is threaded explicitly; the LZ4 primitives and
    [std::uniform_int_distribution], which live outside the file, are
    section variables. *)

From Stdlib Require Import Strings.String Strings.Byte.
From Stdlib Require Import ZArith List Lia Bool.
Import ListNotations.
Local Open Scope Z_scope.

(* ------------------------------------------------------------------ *)
(** ** Machine integers *)

Definition INT_MAX : Z := 2147483647.
Definition INT_MIN : Z := -2147483648.

(** Value of a C++ [int] expression whose mathematical result is [v]
    (two's complement, 32 bits). *)
Definition to_int (v : Z) : Z := (v + 2147483648) mod 4294967296 - 2147483648.

(** Value of a [quint32] expression whose mathematical result is [v]. *)
Definition u32 (v : Z) : Z := v mod 4294967296.

Definition is_int (v : Z) : Prop := INT_MIN <= v <= INT_MAX.
Definition is_u32 (v : Z) : Prop := 0 <= v < 4294967296.

(** Outcome of a C++ call: a returned value or a thrown exception. *)
Inductive outcome (A : Type) : Type :=
| Returned (a : A)
| Thrown (what : string).
Arguments Returned {A} a.
Arguments Thrown {A} what.

(* ------------------------------------------------------------------ *)
(** ** Xorshift generator: [srandXor128] and [randXor128] *)

Module Xor128.

(** The four words of the anonymous namespace, guarded by [randMutex]. *)
Record state : Type := mkState { x : Z; y : Z; z : Z; w : Z }.

Definition initial : state :=
  {| x := 123456789; y := 362436069; z := 987654321; w := 1 |}.

Definition wf (st : state) : Prop :=
  is_u32 (x st) /\ is_u32 (y st) /\ is_u32 (z st) /\ is_u32 (w st).

(** [w = seed; z = w ^ (w >> 8) ^ (w << 5);] *)
Definition srandXor128 (seed : Z) (st : state) : state :=
  let w1 := seed in
  let z1 := Z.lxor (Z.lxor w1 (Z.shiftr w1 8)) (u32 (Z.shiftl w1 5)) in
  {| x := x st; y := y st; z := z1; w := w1 |}.

(** [t = x ^ (x << 11); x = y; y = z; z = w;
    w = w ^ (w >> 19) ^ (t ^ (t >> 8)); return w;] *)
Definition randXor128 (st : state) : Z * state :=
  let t := Z.lxor (x st) (u32 (Z.shiftl (x st) 11)) in
  let w1 := Z.lxor (Z.lxor (w st) (Z.shiftr (w st) 19))
                   (Z.lxor t (Z.shiftr t 8)) in
  (w1, {| x := y st; y := z st; z := w st; w := w1 |}).

(** The first [n] values returned by successive [randXor128] calls. *)
Fixpoint sequence (n : nat) (st : state) : list Z :=
  match n with
  | O => []
  | S n' => let '(v, st') := randXor128 st in v :: sequence n' st'
  end.

End Xor128.

(* ------------------------------------------------------------------ *)
(** ** Ranged sampler: [Tf::random] *)

Section RandomRange.

(** State of the [std::mt19937_64] engine [mt64]. *)
Variable engine : Type.

(** [std::uniform_int_distribution<uint64_t>(a, b)] applied to the
    engine: the drawn value and the advanced engine. A total function
    stands for the library within its precondition [a <= b]; [random_call]
    below leaves open what the library does outside it. *)
Variable uniform_int_distribution : Z -> Z -> engine -> Z * engine.

(** [uint64_t Tf::random(uint64_t min, uint64_t max)]: builds the
    distribution from its arguments and draws under [mt64mtx]; the body
    has no test of the arguments and no [throw]. *)
Definition random (min max : Z) (mt64 : engine) : outcome (Z * engine) :=
  let uniform := uniform_int_distribution min max in
  let ret := uniform mt64 in
  Returned ret.

(** [uint64_t Tf::random(uint64_t max)] *)
Definition random_max (max : Z) (mt64 : engine) : outcome (Z * engine) :=
  random 0 max mt64.

End RandomRange.

Arguments random {engine} _ _ _ _.
Arguments random_max {engine} _ _ _.

Section RandomRangeUnchecked.

Variable engine : Type.

(** [std::uniform_int_distribution<uint64_t>(a, b)] applied to the engine,
    with its precondition [a <= b] not assumed, so that nothing is said of
    what the library does outside it: [None] when it stops the process
    (the assertion [a <= b] of a checked build fails), [Some (Thrown _)]
    when it raises an exception, [Some (Returned _)] with whatever it
    computes otherwise. *)
Variable uniform_int_distribution :
  Z -> Z -> engine -> option (outcome (Z * engine)).

(** [uint64_t Tf::random(uint64_t min, uint64_t max)] over such a library.
    [None]: the process was stopped inside the call. The body has no test
    of the arguments, no [throw] and no [try]: an exception of the library
    leaves the function as it is. *)
Definition random_call (min max : Z) (mt64 : engine)
  : option (outcome (Z * engine)) :=
  let uniform := uniform_int_distribution min max in
  match uniform mt64 with
  | Some (Returned ret) => Some (Returned ret)
  | Some (Thrown what) => Some (Thrown what)
  | None => None
  end.

End RandomRangeUnchecked.

Arguments random_call {engine} _ _ _ _.

(* ------------------------------------------------------------------ *)
(** ** Byte buffers, [QDataStream] and [QBuffer] *)

Definition byte_to_Z (b : byte) : Z := Z.of_N (Byte.to_N b).

Definition byte_of_Z (v : Z) : byte :=
  match Byte.of_N (Z.to_N (v mod 256)) with
  | Some b => b
  | None => x00
  end.

(** [QByteArray::resize(n)] on a buffer whose storage holds [buf]: the
    first [n] bytes are kept; bytes past the stored ones read as zero. *)
Definition resize (n : Z) (buf : list byte) : list byte :=
  firstn (Z.to_nat n) buf ++ repeat x00 (Z.to_nat n - length buf).

Definition isEmpty (buf : list byte) : bool :=
  match buf with [] => true | _ :: _ => false end.

(** The bytes a callee may read through the pointer [mem + off] when it is
    given the length [len]. Nothing is known below the start of [mem]. *)
Definition region (mem : list byte) (off len : Z) : list byte :=
  if off <? 0 then [] else firstn (Z.to_nat len) (skipn (Z.to_nat off) mem).

(** [dsout << (int) v] with [QDataStream::LittleEndian]. *)
Definition put_int32 (v : Z) : list byte :=
  let u := u32 v in
  [ byte_of_Z u; byte_of_Z (Z.shiftr u 8);
    byte_of_Z (Z.shiftr u 16); byte_of_Z (Z.shiftr u 24) ].

Definition get_int32 (b0 b1 b2 b3 : byte) : Z :=
  to_int (byte_to_Z b0 + Z.shiftl (byte_to_Z b1) 8
          + Z.shiftl (byte_to_Z b2) 16 + Z.shiftl (byte_to_Z b3) 24).

(** [dsin >> srclen] on a device holding [dev] with the cursor at [pos]:
    the value read and the new cursor. When fewer than four bytes remain
    [QDataStream] stores 0 and the device is left at its end. *)
Definition read_int32 (dev : list byte) (pos : nat) : Z * nat :=
  match skipn pos dev with
  | b0 :: b1 :: b2 :: b3 :: _ => (get_int32 b0 b1 b2 b3, (pos + 4)%nat)
  | _ => (0, length dev)
  end.

(** [dsin.skipRawData(len)]: the cursor never passes the end of the device. *)
Definition skipRawData (dev : list byte) (pos : nat) (len : Z) : nat :=
  Nat.min (pos + Z.to_nat len) (length dev).

(* ------------------------------------------------------------------ *)
(** ** The stream codec: [lz4Compress] and [lz4Uncompress] *)

Definition LZ4_BLOCKSIZE : Z := 1024 * 1024.

(** One invocation of [LZ4_compress_fast]: the source bytes, [srcSize],
    [dstCapacity] and the acceleration argument. *)
Record call : Type := mkCall {
  c_src : list byte;
  c_srclen : Z;
  c_cap : Z;
  c_level : Z
}.

(** One length prefix read by [lz4Uncompress]: the value of [readlen]
    after the prefix (the payload offset) and the decoded [srclen]. *)
Record prefix : Type := mkPrefix {
  p_offset : Z;
  p_srclen : Z
}.

Section StreamCodec.

(** The LZ4 primitives of [lz4.h]. The compressor and the decompressor
    return their [int] result together with the contents of [dst]. *)
Variable LZ4_compressBound : Z -> Z.
Variable LZ4_compress_fast : list byte -> Z -> Z -> Z -> Z * list byte.
Variable LZ4_decompress_safe : list byte -> Z -> Z -> Z * list byte.

Definition run_call (c : call) : Z * list byte :=
  LZ4_compress_fast (c_src c) (c_srclen c) (c_cap c) (c_level c).

(** The lambda [compress] of [lz4Compress]: the resulting [buffer] and
    the compressor invocations it made. *)
Definition compress (src : list byte) (srclen level : Z)
  : list byte * list call :=
  let bufsize := LZ4_compressBound srclen in
  if 0 <? srclen then
    let c := mkCall (region src 0 srclen) srclen bufsize level in
    let '(rv, dst) := run_call c in
    if 0 <? rv then (resize rv dst, [c]) else ([], [c])
  else ([], []).

(** The [while (readlen < nbytes)] loop of [lz4Compress]: [dsout] appends
    to [ret] the length of [buffer] as a little-endian [int], then its
    bytes. [None] when the fuel runs out before the loop exits. *)
Fixpoint compress_loop (fuel : nat) (data : list byte) (nbytes level : Z)
    (readlen : Z) (ret : list byte) (calls : list call)
  : option (list byte * list call) :=
  if readlen <? nbytes then
    match fuel with
    | O => None
    | S fuel' =>
      let datalen := Z.min (to_int (nbytes - readlen)) LZ4_BLOCKSIZE in
      let '(buffer, made) :=
        compress (skipn (Z.to_nat readlen) data) datalen level in
      let readlen1 := to_int (readlen + datalen) in
      if isEmpty buffer then Some ([], calls ++ made)
      else
        let ret1 := ret ++ put_int32 (to_int (Z.of_nat (length buffer)))
                        ++ buffer in
        compress_loop fuel' data nbytes level readlen1 ret1 (calls ++ made)
    end
  else Some (ret, calls).

(** [QByteArray Tf::lz4Compress(const char *data, int nbytes, int level)]:
    the returned stream and the compressor invocations, in order. *)
Definition lz4Compress (data : list byte) (nbytes level : Z)
  : option (list byte * list call) :=
  let rsvsize := LZ4_compressBound nbytes in
  if rsvsize <? 1 then Some ([], [])
  else compress_loop (Z.to_nat nbytes) data nbytes level 0 [] [].

(** [QByteArray Tf::lz4Compress(const QByteArray &data, int level)] *)
Definition lz4Compress_ba (data : list byte) (level : Z)
  : option (list byte * list call) :=
  lz4Compress data (Z.of_nat (length data)) level.

Definition CompressBoundSize : Z := LZ4_compressBound LZ4_BLOCKSIZE.

(** The [while (readlen < nbytes)] loop of [lz4Uncompress]. [mem] is the
    memory at [data], [dev] the contents of [srcbuf], [pos] its cursor.
    The decompressor is handed [data + readlen] and the declared [srclen]
    as they are; [readlen] is an [int], so both additions are taken on 32
    bits. The destination is taken as the call states it, [LZ4_BLOCKSIZE]
    bytes for every record; the storage [buffer] really has after
    [ret += buffer] made [ret] share it is not part of the model.
    [None] when the fuel runs out before the loop exits. *)
Fixpoint uncompress_loop (fuel : nat) (mem dev : list byte) (nbytes : Z)
    (pos : nat) (readlen : Z) (ret : list byte) (log : list prefix)
  : option (list byte * list prefix) :=
  if readlen <? nbytes then
    match fuel with
    | O => None
    | S fuel' =>
      let '(srclen, pos1) := read_int32 dev pos in
      let readlen1 := to_int (readlen + 4) in
      let log1 := log ++ [mkPrefix readlen1 srclen] in
      if (srclen <=? 0) || (CompressBoundSize <? srclen) then
        Some ([], log1)
      else
        let '(rv, dst) :=
          LZ4_decompress_safe (region mem readlen1 srclen) srclen
                              LZ4_BLOCKSIZE in
        let pos2 := skipRawData dev pos1 srclen in
        let readlen2 := to_int (readlen1 + srclen) in
        if 0 <? rv then
          uncompress_loop fuel' mem dev nbytes pos2 readlen2
                          (ret ++ resize rv dst) log1
        else Some ([], log1)
    end
  else Some (ret, log).

(** [QByteArray Tf::lz4Uncompress(const char *data, int nbytes)]: the
    returned bytes and the length prefixes read, in order. *)
Definition lz4Uncompress (mem : list byte) (nbytes : Z)
  : option (list byte * list prefix) :=
  uncompress_loop (S (Z.to_nat nbytes)) mem (firstn (Z.to_nat nbytes) mem)
                  nbytes 0 0 [] [].

(** [QByteArray Tf::lz4Uncompress(const QByteArray &data)]: the storage
    of a [QByteArray] is followed by its terminating zero byte. *)
Definition lz4Uncompress_ba (data : list byte)
  : option (list byte * list prefix) :=
  lz4Uncompress (data ++ [x00]) (Z.of_nat (length data)).

(** A compressor invocation failed: non-positive return code. *)
Definition call_failed (c : call) : Prop := fst (run_call c) <= 0.

(** A length prefix fails the validation of [lz4Uncompress]. *)
Definition bad_prefix (p : prefix) : Prop :=
  p_srclen p <= 0 \/ CompressBoundSize < p_srclen p.

(** The record written for one successful invocation. *)
Definition frame (c : call) : list byte :=
  let '(rv, dst) := run_call c in
  put_int32 rv ++ resize rv dst.

(** The compressed block is no longer than the bound of a full block:
    what the compressor's capacity contract (at most [dstCapacity] bytes
    written) gives under a monotone bound function. *)
Definition within_block_bound (c : call) : Prop :=
  fst (run_call c) <= CompressBoundSize.

(** Contract of the decompressor on the output of one invocation: given
    the compressed bytes and a destination of [LZ4_BLOCKSIZE] bytes it
    returns the source length and restores the source bytes. *)
Definition block_round_trip (c : call) : Prop :=
  let '(rv, dst) := run_call c in
  let '(n, out) :=
    LZ4_decompress_safe (resize rv dst) rv LZ4_BLOCKSIZE in
  n = c_srclen c /\ resize n out = c_src c.

(** What the round trip needs of one compressor invocation. *)
Definition block_ok (c : call) : Prop :=
  ~ call_failed c /\ within_block_bound c /\ block_round_trip c.

(** The partition the specification describes: [ceil(N / BLOCK_SIZE)]
    blocks, block [i] starting at [i * BLOCK_SIZE] and covering
    [BLOCK_SIZE] bytes or what is left of the input. *)
Definition spec_block_count (nbytes : Z) : nat :=
  Z.to_nat ((nbytes + LZ4_BLOCKSIZE - 1) / LZ4_BLOCKSIZE).

Definition spec_block (data : list byte) (nbytes level : Z) (i : nat)
  : call :=
  let off := LZ4_BLOCKSIZE * Z.of_nat i in
  let len := Z.min (nbytes - off) LZ4_BLOCKSIZE in
  mkCall (region data off len) len (LZ4_compressBound len) level.

Definition spec_blocks (data : list byte) (nbytes level : Z) : list call :=
  map (spec_block data nbytes level) (seq 0 (spec_block_count nbytes)).

End StreamCodec.

Arguments run_call LZ4_compress_fast c /.
Arguments call_failed LZ4_compress_fast c /.
Arguments bad_prefix LZ4_compressBound p /.

(* ------------------------------------------------------------------ *)
(** ** Reference instances of the external interfaces

    The theorems below hold for every implementation of the external
    primitives. To run the embedding on concrete inputs the primitives are
    instantiated here: the bound macro of [lz4.h], and a block codec that
    emits and accepts the literal-only blocks of the LZ4 block format (one
    token, the run-length extension bytes, the literals). As in the LZ4
    decoder, the low nibble of the token (a match length) is not looked at
    when the literals end the block. *)

Module LiteralLZ4.

Definition LZ4_MAX_INPUT_SIZE : Z := 2113929216. (* 0x7E000000 *)

(** [LZ4_COMPRESSBOUND(isize)]: the comparison is on [unsigned] values,
    so a negative [isize] is out of range as well. *)
Definition LZ4_compressBound (isize : Z) : Z :=
  if (isize <? 0) || (LZ4_MAX_INPUT_SIZE <? isize) then 0
  else isize + isize / 255 + 16.

(** Extension bytes of a run length: bytes of 255, then the remainder. *)
Fixpoint put_length (fuel : nat) (n : Z) : list byte :=
  match fuel with
  | O => []
  | S fuel' =>
    if n <? 255 then [byte_of_Z n] else xff :: put_length fuel' (n - 255)
  end.

Fixpoint get_length (src : list byte) (acc : Z) : option (Z * list byte) :=
  match src with
  | [] => None
  | b :: rest =>
    if byte_to_Z b =? 255 then get_length rest (acc + 255)
    else Some (acc + byte_to_Z b, rest)
  end.

Definition encode (src : list byte) : list byte :=
  let n := Z.of_nat (length src) in
  if n <? 15 then byte_of_Z (16 * n) :: src
  else xf0 :: put_length (S (Z.to_nat (n / 255))) (n - 15) ++ src.

Definition LZ4_compress_fast (src : list byte)
    (srcSize dstCapacity acceleration : Z) : Z * list byte :=
  let out := encode src in
  if Z.of_nat (length out) <=? dstCapacity
  then (Z.of_nat (length out), out)
  else (0, []).

Definition LZ4_decompress_safe (src : list byte)
    (compressedSize dstCapacity : Z) : Z * list byte :=
  match src with
  | [] => (-1, [])
  | token :: rest =>
    let t := byte_to_Z token in
    match (if t / 16 =? 15 then get_length rest 15
           else Some (t / 16, rest)) with
    | None => (-1, [])
    | Some (n, literals) =>
      if (Z.of_nat (length literals) =? n) && (n <=? dstCapacity)
      then (n, literals)
      else (-1, [])
    end
  end.

Definition lz4Compress_ba :=
  lz4Compress_ba LZ4_compressBound LZ4_compress_fast.
Definition lz4Uncompress_ba :=
  lz4Uncompress_ba LZ4_compressBound LZ4_decompress_safe.

End LiteralLZ4.

(** An input longer than [LZ4_MAX_INPUT_SIZE] (and within the range of
    [int]): 2113929217 zero bytes. *)
Definition oversize_input : list byte := repeat x00 (Z.to_nat 2113929217).

(** A compressor that fails on every block. *)
Definition failing_compress_fast (src : list byte)
    (srcSize dstCapacity acceleration : Z) : Z * list byte := (0, []).

(** A stand-in for [std::uniform_int_distribution] over a counter engine:
    the draw is reduced into the range of [b - a] computed on 64 bits. *)
Module CounterEngine.

Definition u64 (v : Z) : Z := v mod 18446744073709551616.

Definition uniform_int_distribution (a b : Z) (g : Z) : Z * Z :=
  (u64 (a + g mod (u64 (b - a) + 1)), g + 1).

End CounterEngine.

(** The same stand-in outside the precondition [a <= b]: a checked build
    stops the process there, an unchecked one computes on. *)
Module UncheckedRange.

Definition asserting (a b : Z) (g : Z) : option (outcome (Z * Z)) :=
  if b <? a then None
  else Some (Returned (CounterEngine.uniform_int_distribution a b g)).

Definition computing (a b : Z) (g : Z) : option (outcome (Z * Z)) :=
  Some (Returned (CounterEngine.uniform_int_distribution a b g)).

End UncheckedRange.

(** An input of exactly one full block: 1048576 bytes. *)
Definition full_block_input : list byte := repeat x41 (Z.to_nat 1048576).

(* ------------------------------------------------------------------ *)
(** ** Further definitions: generator runs, decoded blocks, contexts *)

(** The generator state after [n] successive [randXor128] calls. *)
Fixpoint xor128_advance (n : nat) (st : Xor128.state) : Xor128.state :=
  match n with
  | O => st
  | S n' => xor128_advance n' (snd (Xor128.randXor128 st))
  end.

Definition xor128_zero : Xor128.state := Xor128.mkState 0 0 0 0.

(** What [lz4Uncompress] asks of the decompressor for the record whose
    prefix is [p]: the call
    [LZ4_decompress_safe(data + readlen, buffer.data(), srclen, LZ4_BLOCKSIZE)]. *)
Definition decompress_record
    (LZ4_decompress_safe : list byte -> Z -> Z -> Z * list byte)
    (mem : list byte) (p : prefix) : Z * list byte :=
  LZ4_decompress_safe (region mem (p_offset p) (p_srclen p)) (p_srclen p)
                      LZ4_BLOCKSIZE.

(** The bytes [lz4Uncompress] appends for a record: [buffer.resize(rv)]. *)
Definition record_output
    (LZ4_decompress_safe : list byte -> Z -> Z -> Z * list byte)
    (mem : list byte) (p : prefix) : list byte :=
  resize (fst (decompress_record LZ4_decompress_safe mem p))
         (snd (decompress_record LZ4_decompress_safe mem p)).

(** A record that [lz4Uncompress] decoded: its prefix passed the length
    validation and the decompressor returned a positive length. *)
Definition record_decoded (LZ4_compressBound : Z -> Z)
    (LZ4_decompress_safe : list byte -> Z -> Z -> Z * list byte)
    (mem : list byte) (p : prefix) : Prop :=
  ~ bad_prefix LZ4_compressBound p
  /\ 0 < fst (decompress_record LZ4_decompress_safe mem p).

Module Context.

(** [TWebApplication::MultiProcessingModule]: the two enumerators the
    [switch] of [currentContext] names, and any other one. *)
Inductive MultiProcessingModule : Type := Thread | Epoll | OtherModule.

(** What the code asks of [QThread::currentThread()]: the results of
    [qobject_cast<TActionThread *>] and [dynamic_cast<TDatabaseContext *>];
    [None] is the null pointer. *)
Record thread (ActionContext DatabaseContext : Type) : Type := mkThread {
  as_action_thread : option ActionContext;
  as_database_context : option DatabaseContext
}.
Arguments mkThread {ActionContext DatabaseContext} _ _.
Arguments as_action_thread {ActionContext DatabaseContext} _.
Arguments as_database_context {ActionContext DatabaseContext} _.

(** The message of the [RuntimeException] both functions throw. *)
Definition cast_failure : string := "Can not cast the current thread".

(** [TActionContext *Tf::currentContext()], [Q_OS_LINUX] build. [worker]
    is the pointer [TActionWorker::instance()] returns. *)
Definition currentContext {A D : Type} (mpm : MultiProcessingModule)
    (current : thread A D) (worker : option A) : outcome (option A) :=
  match mpm with
  | Thread =>
    match as_action_thread current with
    | Some context => Returned (Some context)
    | None => Thrown cast_failure
    end
  | Epoll => Returned worker
  | OtherModule => Thrown cast_failure
  end.

(** [TDatabaseContext *Tf::currentDatabaseContext()]. [registered] is the
    pointer [TDatabaseContext::currentDatabaseContext()] returns. *)
Definition currentDatabaseContext {A D : Type} (registered : option D)
    (current : thread A D) : outcome D :=
  match registered with
  | Some context => Returned context
  | None =>
    match as_database_context current with
    | Some context => Returned context
    | None => Thrown cast_failure
    end
  end.

(** [QSqlDatabase &Tf::currentSqlDatabase(int id)]:
    [currentDatabaseContext()->getSqlDatabase(id)]. The method
    [getSqlDatabase] belongs to [TDatabaseContext] and may throw. *)
Definition currentSqlDatabase {A D Db : Type}
    (getSqlDatabase : D -> Z -> outcome Db)
    (registered : option D) (current : thread A D) (id : Z) : outcome Db :=
  match currentDatabaseContext registered current with
  | Returned context => getSqlDatabase context id
  | Thrown what => Thrown what
  end.

End Context.

(* ================================================================== *)
(** * Properties *)

(** ** Machine integers *)

Lemma u32_range (v : Z) : is_u32 (u32 v).
Proof. unfold is_u32, u32. apply Z.mod_pos_bound. lia. Qed.

Lemma u32_small (v : Z) : is_u32 v -> u32 v = v.
Proof. unfold is_u32, u32. intros H. apply Z.mod_small. exact H. Qed.

Lemma u32_land (v : Z) : u32 v = Z.land v (Z.ones 32).
Proof. unfold u32. rewrite Z.land_ones by lia. reflexivity. Qed.

Lemma u32_lxor (a b : Z) : u32 (Z.lxor a b) = Z.lxor (u32 a) (u32 b).
Proof.
  rewrite !u32_land. apply Z.bits_inj'. intros n Hn.
  rewrite Z.lxor_spec, !Z.land_spec, Z.lxor_spec.
  destruct (Z.testbit a n), (Z.testbit b n), (Z.testbit (Z.ones 32) n);
    reflexivity.
Qed.

Lemma is_u32_lxor (a b : Z) : is_u32 a -> is_u32 b -> is_u32 (Z.lxor a b).
Proof.
  intros Ha Hb. rewrite <- (u32_small a Ha), <- (u32_small b Hb), <- u32_lxor.
  apply u32_range.
Qed.

Lemma is_u32_shiftr (a k : Z) : is_u32 a -> 0 <= k -> is_u32 (Z.shiftr a k).
Proof.
  unfold is_u32. intros Ha Hk. rewrite Z.shiftr_div_pow2 by exact Hk.
  assert (Hp : 0 < 2 ^ k) by (apply Z.pow_pos_nonneg; lia).
  split.
  - apply Z.div_pos; lia.
  - apply Z.le_lt_trans with a; [ | lia ].
    apply Z.div_le_upper_bound; nia.
Qed.

Lemma to_int_small (v : Z) : is_int v -> to_int v = v.
Proof.
  unfold is_int, INT_MIN, INT_MAX, to_int. intros H.
  rewrite Z.mod_small by lia. lia.
Qed.

Lemma to_int_range (v : Z) : is_int (to_int v).
Proof.
  unfold is_int, INT_MIN, INT_MAX, to_int.
  pose proof (Z.mod_pos_bound (v + 2147483648) 4294967296). lia.
Qed.

(** ** Xorshift generator *)

Lemma srandXor128_wf (s : Z) (st : Xor128.state) :
  is_u32 s -> Xor128.wf st -> Xor128.wf (Xor128.srandXor128 s st).
Proof.
  intros Hs (Hx & Hy & _ & _). unfold Xor128.wf, Xor128.srandXor128; simpl.
  split; [ exact Hx | split; [ exact Hy | split; [ | exact Hs ] ] ].
  apply is_u32_lxor; [ apply is_u32_lxor | apply u32_range ].
  - exact Hs.
  - apply is_u32_shiftr; [ exact Hs | lia ].
Qed.

Lemma randXor128_wf (st : Xor128.state) :
  Xor128.wf st ->
  is_u32 (fst (Xor128.randXor128 st)) /\ Xor128.wf (snd (Xor128.randXor128 st)).
Proof.
  intros (Hx & Hy & Hz & Hw).
  assert (Ht : is_u32 (Z.lxor (Xor128.x st)
                              (u32 (Z.shiftl (Xor128.x st) 11))))
    by (apply is_u32_lxor; [ exact Hx | apply u32_range ]).
  assert (Hn : is_u32 (fst (Xor128.randXor128 st))).
  { unfold Xor128.randXor128; simpl.
    apply is_u32_lxor; apply is_u32_lxor; try assumption;
      apply is_u32_shiftr; (assumption || lia). }
  split; [ exact Hn | ].
  unfold Xor128.wf. simpl. auto.
Qed.

(** C7. After [srandXor128(s)] the word [w] is [s], the word [z] is
    [s XOR (s >> 8) XOR (s << 5)] taken on 32 bits, and [x] and [y] keep
    the values they had before the call. *)
Theorem srandXor128_post (s : Z) (st : Xor128.state) :
  is_u32 s ->
  let st' := Xor128.srandXor128 s st in
  Xor128.w st' = s /\
  Xor128.z st' = u32 (Z.lxor (Z.lxor s (Z.shiftr s 8)) (Z.shiftl s 5)) /\
  Xor128.x st' = Xor128.x st /\
  Xor128.y st' = Xor128.y st.
Proof.
  intros Hs. simpl. repeat split.
  rewrite !u32_lxor.
  rewrite (u32_small s Hs).
  rewrite (u32_small (Z.shiftr s 8)) by (apply is_u32_shiftr; [ exact Hs | lia ]).
  reflexivity.
Qed.

Lemma srandXor128_post_witness :
  let st' := Xor128.srandXor128 4000000000 Xor128.initial in
  Xor128.w st' = 4000000000 /\
  Xor128.z st' = 601899816 /\
  Xor128.x st' = 123456789 /\
  Xor128.y st' = 362436069.
Proof.
  apply (srandXor128_post 4000000000 Xor128.initial).
  unfold is_u32. lia.
Defined.

(** C6 (as stated, refuted). Two generators seeded with the same value
    give different sequences when their [x] words differ before seeding:
    here a fresh generator and one that has already produced one value. *)
Lemma xor128_reseed_keeps_history :
  Xor128.sequence 1 (Xor128.srandXor128 1 Xor128.initial) <>
  Xor128.sequence 1
    (Xor128.srandXor128 1 (snd (Xor128.randXor128 Xor128.initial))).
Proof. vm_compute. discriminate. Qed.

(** C6 (amended). Two generators seeded with the same value produce the
    same sequence of [randXor128] values whenever their [x] and [y] words
    agree before seeding, whatever their [z] and [w] words were. *)
Theorem xor128_seed_determinism (s : Z) (st1 st2 : Xor128.state) (n : nat) :
  Xor128.x st1 = Xor128.x st2 ->
  Xor128.y st1 = Xor128.y st2 ->
  Xor128.sequence n (Xor128.srandXor128 s st1) =
  Xor128.sequence n (Xor128.srandXor128 s st2).
Proof.
  intros Hx Hy. unfold Xor128.srandXor128. rewrite Hx, Hy. reflexivity.
Qed.

Lemma xor128_seed_determinism_witness :
  Xor128.sequence 4 (Xor128.srandXor128 7 Xor128.initial) =
  Xor128.sequence 4
    (Xor128.srandXor128 7
       (Xor128.mkState 123456789 362436069 42 99)).
Proof.
  apply (xor128_seed_determinism 7 Xor128.initial
           (Xor128.mkState 123456789 362436069 42 99) 4);
    reflexivity.
Defined.

(** ** Ranged sampler *)

Lemma counter_uniform_in_range (a b g : Z) :
  0 <= a -> a <= b -> b < 18446744073709551616 ->
  a <= fst (CounterEngine.uniform_int_distribution a b g) <= b.
Proof.
  intros Ha Hab Hb. unfold CounterEngine.uniform_int_distribution,
    CounterEngine.u64. simpl.
  rewrite (Z.mod_small (b - a)) by lia.
  pose proof (Z.mod_pos_bound g (b - a + 1) ltac:(lia)) as Hr.
  rewrite Z.mod_small by lia. lia.
Qed.

(** C8. Given the contract of [std::uniform_int_distribution] (a draw
    from the distribution built on [a <= b] lies in [[a, b]]), for
    [min <= max] the value returned by [Tf::random(min, max)] lies in
    [[min, max]], both ends included, and [Tf::random(max)] is
    [Tf::random(0, max)]. *)
Theorem random_range_bounds (engine : Type)
    (uniform : Z -> Z -> engine -> Z * engine)
    (min max : Z) (mt64 : engine) :
  (forall a b g, 0 <= a -> a <= b -> b < 18446744073709551616 ->
                 a <= fst (uniform a b g) <= b) ->
  0 <= min -> min <= max -> max < 18446744073709551616 ->
  (exists v mt64', random uniform min max mt64 = Returned (v, mt64')
                   /\ min <= v <= max) /\
  random_max uniform max mt64 = random uniform 0 max mt64.
Proof.
  intros Hstd Hmin Hle Hmax. split; [ | reflexivity ].
  unfold random. specialize (Hstd min max mt64 Hmin Hle Hmax).
  destruct (uniform min max mt64) as [v g'] eqn:E. simpl in Hstd.
  exists v, g'. split; [ reflexivity | exact Hstd ].
Qed.

Lemma random_range_bounds_witness :
  (exists v mt64',
      random CounterEngine.uniform_int_distribution 5 9 7 = Returned (v, mt64')
      /\ 5 <= v <= 9) /\
  random_max CounterEngine.uniform_int_distribution 9 7 =
  random CounterEngine.uniform_int_distribution 0 9 7.
Proof.
  apply (random_range_bounds Z CounterEngine.uniform_int_distribution 5 9 7).
  - exact counter_uniform_in_range.
  - lia.
  - lia.
  - lia.
Defined.

(** C9 (as stated, refuted). With [min = 9 > max = 5] the call is not
    rejected with an error of [Tf::random]: over a checked library the
    process is stopped inside the distribution, over an unchecked one the
    call returns a value outside the empty range. *)
Lemma random_call_min_gt_max_not_rejected :
  random_call UncheckedRange.asserting 9 5 0 = None /\
  random_call UncheckedRange.computing 9 5 0 = Some (Returned (9, 1)) /\
  ~ (exists what,
        random_call UncheckedRange.asserting 9 5 0 = Some (Thrown what)) /\
  ~ (exists what,
        random_call UncheckedRange.computing 9 5 0 = Some (Thrown what)).
Proof.
  split; [ reflexivity | ]. split; [ reflexivity | ].
  split; intros [what H]; discriminate H.
Qed.

(** C9 (amended). [Tf::random(min, max)] does not examine its arguments
    and adds no error of its own, for every [min] and [max], [min > max]
    included: the outcome is that of the distribution built on the
    unchanged arguments. The call returns exactly when the distribution
    returns, with the value it drew; the process is stopped exactly when
    the distribution stops it; an exception leaves the call exactly when
    the distribution raised it. *)
Theorem random_call_adds_no_error (engine : Type)
    (uniform : Z -> Z -> engine -> option (outcome (Z * engine)))
    (min max : Z) (mt64 : engine) :
  (forall ret,
      random_call uniform min max mt64 = Some (Returned ret)
      <-> uniform min max mt64 = Some (Returned ret)) /\
  (random_call uniform min max mt64 = None <-> uniform min max mt64 = None) /\
  (forall what,
      random_call uniform min max mt64 = Some (Thrown what)
      <-> uniform min max mt64 = Some (Thrown what)).
Proof.
  assert (E : random_call uniform min max mt64 = uniform min max mt64).
  { unfold random_call.
    destruct (uniform min max mt64) as [[ret | what] | ]; reflexivity. }
  rewrite E. split; [ | split ]; intros; split; auto.
Qed.

(** ** Byte buffers and the little-endian length prefix *)

Lemma byte_to_of_Z (v : Z) : byte_to_Z (byte_of_Z v) = v mod 256.
Proof.
  unfold byte_to_Z, byte_of_Z.
  pose proof (Z.mod_pos_bound v 256 ltac:(lia)) as Hm.
  destruct (Byte.of_N (Z.to_N (v mod 256))) as [b | ] eqn:E.
  - apply Byte.to_of_N in E. rewrite E. apply Z2N.id. lia.
  - apply Byte.of_N_None_iff in E. lia.
Qed.

Lemma byte_to_Z_range (b : byte) : 0 <= byte_to_Z b < 256.
Proof.
  unfold byte_to_Z. pose proof (Byte.to_N_bounded b). lia.
Qed.

Lemma to_int_u32 (v : Z) : to_int (u32 v) = to_int v.
Proof.
  unfold to_int, u32. rewrite Zplus_mod_idemp_l. reflexivity.
Qed.

Lemma u32_to_int (v : Z) : u32 (to_int v) = u32 v.
Proof.
  unfold to_int, u32. rewrite Zminus_mod_idemp_l. f_equal. lia.
Qed.

Lemma put_int32_to_int (v : Z) : put_int32 (to_int v) = put_int32 v.
Proof. unfold put_int32. rewrite u32_to_int. reflexivity. Qed.

Lemma length_put_int32 (v : Z) : length (put_int32 v) = 4%nat.
Proof. reflexivity. Qed.

Lemma le_bytes_sum (u : Z) :
  0 <= u < 4294967296 ->
  u mod 256 + (u / 256) mod 256 * 256 + (u / 65536) mod 256 * 65536
  + (u / 16777216) mod 256 * 16777216 = u.
Proof. intros H. Z.div_mod_to_equations. lia. Qed.

(** Reading back the four bytes written for an [int] gives that [int]. *)
Lemma get_put_int32 (v : Z) (rest : list byte) :
  is_int v ->
  match put_int32 v ++ rest with
  | b0 :: b1 :: b2 :: b3 :: _ => get_int32 b0 b1 b2 b3
  | _ => 0
  end = v.
Proof.
  intros Hv. unfold put_int32. cbn [app]. unfold get_int32.
  rewrite !byte_to_of_Z, !Z.shiftr_div_pow2, !Z.shiftl_mul_pow2 by lia.
  change (2 ^ 8) with 256. change (2 ^ 16) with 65536.
  change (2 ^ 24) with 16777216.
  rewrite le_bytes_sum by apply u32_range.
  rewrite to_int_u32. apply to_int_small. exact Hv.
Qed.

Lemma length_resize (n : Z) (buf : list byte) :
  length (resize n buf) = Z.to_nat n.
Proof.
  unfold resize. rewrite length_app, length_firstn, repeat_length. lia.
Qed.

Lemma resize_nonempty (n : Z) (buf : list byte) :
  0 < n -> isEmpty (resize n buf) = false.
Proof.
  intros Hn. pose proof (length_resize n buf) as Hl.
  destruct (resize n buf); [ simpl in Hl; lia | reflexivity ].
Qed.

Lemma region_from_start (mem : list byte) (off len : Z) :
  0 <= off ->
  region (skipn (Z.to_nat off) mem) 0 len = region mem off len.
Proof.
  intros Hoff. unfold region.
  destruct (off <? 0) eqn:E; [ apply Z.ltb_lt in E; lia | ].
  reflexivity.
Qed.

(** ** Block arithmetic *)

Lemma block_index_below_count (nbytes : Z) (j : nat) :
  LZ4_BLOCKSIZE * Z.of_nat j < nbytes ->
  (j < Z.to_nat ((nbytes + LZ4_BLOCKSIZE - 1) / LZ4_BLOCKSIZE))%nat.
Proof.
  change LZ4_BLOCKSIZE with 1048576. intros H.
  assert (Z.of_nat j + 1 <= (nbytes + 1048576 - 1) / 1048576)
    by (apply Z.div_le_lower_bound; lia).
  lia.
Qed.

Lemma block_index_reaches_count (nbytes : Z) (j : nat) :
  nbytes <= LZ4_BLOCKSIZE * Z.of_nat j ->
  (Z.to_nat ((nbytes + LZ4_BLOCKSIZE - 1) / LZ4_BLOCKSIZE) <= j)%nat.
Proof.
  change LZ4_BLOCKSIZE with 1048576. intros H.
  assert ((nbytes + 1048576 - 1) / 1048576 < Z.of_nat j + 1)
    by (apply Z.div_lt_upper_bound; lia).
  lia.
Qed.

Lemma spec_block_count_bounds (nbytes : Z) :
  0 < nbytes ->
  LZ4_BLOCKSIZE * (Z.of_nat (spec_block_count nbytes) - 1) < nbytes
  /\ nbytes <= LZ4_BLOCKSIZE * Z.of_nat (spec_block_count nbytes).
Proof.
  intros Hn. unfold spec_block_count. change LZ4_BLOCKSIZE with 1048576.
  assert (0 <= (nbytes + 1048576 - 1) / 1048576)
    by (apply Z.div_pos; lia).
  rewrite Z2Nat.id by assumption.
  Z.div_mod_to_equations. lia.
Qed.

(** ** The compression loop *)

Section CompressFacts.

Variable LZ4_compressBound : Z -> Z.
Variable LZ4_compress_fast : list byte -> Z -> Z -> Z -> Z * list byte.

Local Abbreviation compress := (compress LZ4_compressBound LZ4_compress_fast).
Local Abbreviation compress_loop :=
  (compress_loop LZ4_compressBound LZ4_compress_fast).
Local Abbreviation lz4Compress :=
  (lz4Compress LZ4_compressBound LZ4_compress_fast).
Local Abbreviation failed := (call_failed LZ4_compress_fast).
Local Abbreviation frame := (frame LZ4_compress_fast).
Local Abbreviation spec_block := (spec_block LZ4_compressBound).

Lemma compress_loop_exit (fuel : nat) (data : list byte)
    (nbytes level readlen : Z) (ret : list byte) (calls : list call) :
  nbytes <= readlen ->
  compress_loop fuel data nbytes level readlen ret calls = Some (ret, calls).
Proof.
  intros H. apply Z.ltb_ge in H.
  destruct fuel; simpl; rewrite H; reflexivity.
Qed.

(** What the lambda does on a non-empty block. *)
Lemma compress_block (src : list byte) (srclen level : Z) :
  0 < srclen ->
  let c := mkCall (region src 0 srclen) srclen
                  (LZ4_compressBound srclen) level in
  compress src srclen level =
  ((if 0 <? fst (run_call LZ4_compress_fast c)
    then resize (fst (run_call LZ4_compress_fast c))
                (snd (run_call LZ4_compress_fast c))
    else []), [c]).
Proof.
  intros H. apply Z.ltb_lt in H. unfold compress. rewrite H.
  simpl. destruct (LZ4_compress_fast _ _ _ _) as [rv dst]. simpl.
  destruct (0 <? rv); reflexivity.
Qed.

Lemma frame_eq (c : call) :
  frame c = put_int32 (fst (run_call LZ4_compress_fast c))
            ++ resize (fst (run_call LZ4_compress_fast c))
                      (snd (run_call LZ4_compress_fast c)).
Proof.
  unfold frame. simpl.
  destruct (LZ4_compress_fast _ _ _ _); reflexivity.
Qed.

(** Invariant of the loop, entered with [j] whole blocks consumed: the
    invocations made are the next blocks of the partition, in order; the
    loop either stops at a failed invocation with an empty result, or
    runs through all remaining blocks and appends one frame for each. *)
Lemma compress_loop_spec (data : list byte) (nbytes level : Z) :
  is_int nbytes ->
  forall (fuel j : nat) (ret : list byte) (calls : list call),
    let readlen := Z.min nbytes (LZ4_BLOCKSIZE * Z.of_nat j) in
    (Z.to_nat (nbytes - readlen) <= fuel)%nat ->
    (j <= spec_block_count nbytes)%nat ->
    exists (r : list byte) (m : nat),
      let made := map (spec_block data nbytes level) (seq j m) in
      compress_loop fuel data nbytes level readlen ret calls
        = Some (r, calls ++ made) /\
      (j + m <= spec_block_count nbytes)%nat /\
      ((Exists failed made /\ r = []) \/
       (Forall (fun c => ~ failed c) made /\
        r = ret ++ concat (map frame made) /\
        (j + m = spec_block_count nbytes)%nat)).
Proof.
  intros Hint. induction fuel as [ | fuel IH]; intros j ret calls readlen Hfuel Hj.
  - exists ret, 0%nat. cbn zeta. simpl map. rewrite app_nil_r. split.
    + apply compress_loop_exit. lia.
    + split; [ lia | ]. right. split; [ constructor | ]. split.
      * simpl. rewrite app_nil_r. reflexivity.
      * assert (nbytes <= LZ4_BLOCKSIZE * Z.of_nat j) by lia.
        pose proof (block_index_reaches_count nbytes j H).
        unfold spec_block_count in *. lia.
  - destruct (Z.ltb_spec readlen nbytes) as [Hlt | Hge].
    + (* one more block *)
      assert (Hrl : readlen = LZ4_BLOCKSIZE * Z.of_nat j) by lia.
      assert (Hpos : 0 <= readlen)
        by (rewrite Hrl; change LZ4_BLOCKSIZE with 1048576; lia).
      set (datalen := Z.min (nbytes - readlen) LZ4_BLOCKSIZE).
      assert (Hdl : 0 < datalen <= LZ4_BLOCKSIZE)
        by (unfold datalen; change LZ4_BLOCKSIZE with 1048576; lia).
      assert (Hti : to_int (nbytes - readlen) = nbytes - readlen)
        by (apply to_int_small; unfold is_int in *; unfold INT_MIN, INT_MAX in *; lia).
      assert (Hnext : to_int (readlen + datalen)
                      = Z.min nbytes (LZ4_BLOCKSIZE * Z.of_nat (S j))).
      { rewrite to_int_small.
        - unfold datalen. rewrite Hrl. change LZ4_BLOCKSIZE with 1048576. lia.
        - unfold is_int in *; unfold INT_MIN, INT_MAX in *. lia. }
      set (c := spec_block data nbytes level j).
      assert (Hc : c = mkCall (region (skipn (Z.to_nat readlen) data) 0 datalen)
                              datalen (LZ4_compressBound datalen) level).
      { unfold c, spec_block. cbn zeta. rewrite <- Hrl.
        fold datalen. rewrite region_from_start by exact Hpos. reflexivity. }
      assert (Hstep : forall fuel', compress_loop (S fuel') data nbytes level readlen ret calls
                = if 0 <? fst (run_call LZ4_compress_fast c)
                  then compress_loop fuel' data nbytes level
                         (Z.min nbytes (LZ4_BLOCKSIZE * Z.of_nat (S j)))
                         (ret ++ frame c) (calls ++ [c])
                  else Some ([], calls ++ [c])).
      { intros fuel'. cbn [compress_loop].
        apply Z.ltb_lt in Hlt. rewrite Hlt. rewrite Hti. fold datalen.
        rewrite (compress_block _ datalen level (proj1 Hdl)). cbn zeta.
        rewrite <- Hc. rewrite Hnext.
        destruct (Z.ltb_spec 0 (fst (run_call LZ4_compress_fast c))) as [Hrv | Hrv].
        - rewrite resize_nonempty by exact Hrv.
          rewrite length_resize, Z2Nat.id by lia.
          rewrite put_int32_to_int, frame_eq. reflexivity.
        - reflexivity. }
      rewrite Hstep.
      destruct (Z.ltb_spec 0 (fst (run_call LZ4_compress_fast c))) as [Hrv | Hrv].
      * assert (HSj : (S j <= spec_block_count nbytes)%nat).
        { pose proof (block_index_below_count nbytes j ltac:(lia)).
          unfold spec_block_count. lia. }
        destruct (IH (S j) (ret ++ frame c) (calls ++ [c]))
          as (r & m & Hrun & Hm & Hres).
        { cbn zeta. rewrite <- Hnext.
          rewrite to_int_small
            by (unfold is_int in *; unfold INT_MIN, INT_MAX in *; lia).
          lia. }
        { exact HSj. }
        cbn zeta in Hrun, Hres.
        exists r, (S m). cbn zeta. cbn [seq map]. fold c.
        split.
        { rewrite Hrun, <- app_assoc. reflexivity. }
        split; [ lia | ].
        destruct Hres as [[Hex Hr] | (Hall & Hr & Hcount)].
        -- left. split; [ apply Exists_cons_tl; exact Hex | exact Hr ].
        -- right. split; [ | split ].
           ++ constructor; [ unfold call_failed; lia | exact Hall ].
           ++ rewrite Hr. cbn [concat]. rewrite <- !app_assoc. reflexivity.
           ++ lia.
      * exists [], 1%nat. cbn zeta. cbn [seq map]. fold c. split.
        { reflexivity. }
        assert (HSj : (S j <= spec_block_count nbytes)%nat).
        { pose proof (block_index_below_count nbytes j ltac:(lia)).
          unfold spec_block_count. lia. }
        split; [ lia | ].
        left. split; [ | reflexivity ].
        apply Exists_cons_hd. unfold call_failed. lia.
    + (* the loop is over *)
      exists ret, 0%nat. cbn zeta. simpl map. rewrite app_nil_r. split.
      * apply compress_loop_exit. lia.
      * split; [ lia | ]. right. split; [ constructor | ]. split.
        -- simpl. rewrite app_nil_r. reflexivity.
        -- assert (nbytes <= LZ4_BLOCKSIZE * Z.of_nat j) by lia.
           pose proof (block_index_reaches_count nbytes j H).
           unfold spec_block_count in *. lia.
Qed.

Local Abbreviation spec_blocks := (spec_blocks LZ4_compressBound).

(** The whole function: it always returns; the invocations it makes are
    the leading blocks of the partition; it stops at the first failed
    one with an empty result, and otherwise frames every block. *)
Lemma lz4Compress_spec (data : list byte) (nbytes level : Z) :
  is_int nbytes ->
  exists (r : list byte) (m : nat),
    let made := map (spec_block data nbytes level) (seq 0 m) in
    lz4Compress data nbytes level = Some (r, made) /\
    (m <= spec_block_count nbytes)%nat /\
    ((LZ4_compressBound nbytes < 1 /\ m = 0%nat /\ r = []) \/
     (1 <= LZ4_compressBound nbytes /\ Exists failed made /\ r = []) \/
     (1 <= LZ4_compressBound nbytes /\
      Forall (fun c => ~ failed c) made /\
      r = concat (map frame made) /\
      m = spec_block_count nbytes)).
Proof.
  intros Hint. unfold lz4Compress.
  destruct (Z.ltb_spec (LZ4_compressBound nbytes) 1) as [Hb | Hb].
  - exists [], 0%nat. cbn zeta. split; [ reflexivity | ].
    split; [ lia | ]. left. auto.
  - destruct (Z.le_gt_cases nbytes 0) as [Hn | Hn].
    + (* a non-positive length: the loop exits at once *)
      exists [], 0%nat. cbn zeta. split.
      * apply compress_loop_exit. exact Hn.
      * split; [ lia | ]. right. right. split; [ exact Hb | ]. split; [ constructor | ].
        split; [ reflexivity | ].
        pose proof (block_index_reaches_count nbytes 0 ltac:(lia)).
        unfold spec_block_count. lia.
    + destruct (compress_loop_spec data nbytes level Hint
                  (Z.to_nat nbytes) 0 [] [])
        as (r & m & Hrun & Hle & Hres).
      * cbn zeta. change LZ4_BLOCKSIZE with 1048576. lia.
      * lia.
      * cbn zeta in Hrun, Hres.
        replace (Z.min nbytes (LZ4_BLOCKSIZE * Z.of_nat 0)) with 0 in Hrun
          by (change LZ4_BLOCKSIZE with 1048576; lia).
        exists r, m. cbn zeta. split; [ exact Hrun | ].
        split; [ lia | ]. right. destruct Hres as [[Hex Hr] | (Hall & Hr & Hm)].
        -- left. auto.
        -- right. repeat split; auto.
Qed.

(** C10. Called with [nbytes <= 0], negative lengths included,
    [lz4Compress] returns the empty stream and the block compressor is
    never invoked. *)
Theorem lz4Compress_nonpositive_length
    (data : list byte) (nbytes level : Z) :
  nbytes <= 0 ->
  lz4Compress data nbytes level = Some ([], []).
Proof.
  intros Hn. unfold lz4Compress.
  destruct (LZ4_compressBound nbytes <? 1); [ reflexivity | ].
  apply compress_loop_exit. exact Hn.
Qed.

(** C4. [lz4Compress] always returns, and whenever the block compressor
    fails (non-positive code) on an invocation it made, or would fail on
    any block of the input, the returned stream is empty: no stream
    holding only the leading blocks is ever returned. *)
Theorem lz4Compress_failure_empty (data : list byte) (nbytes level : Z) :
  is_int nbytes ->
  exists (r : list byte) (calls : list call),
    lz4Compress data nbytes level = Some (r, calls) /\
    (Exists failed calls -> r = []) /\
    (Exists failed (spec_blocks data nbytes level) -> r = []).
Proof.
  intros Hint.
  destruct (lz4Compress_spec data nbytes level Hint)
    as (r & m & Hrun & _ & Hres).
  cbn zeta in Hrun, Hres.
  exists r, (map (spec_block data nbytes level) (seq 0 m)).
  split; [ exact Hrun | ].
  destruct Hres as [(_ & _ & Hr) | [(_ & _ & Hr) | (_ & Hall & _ & Hm)]];
    try (split; intros _; exact Hr).
  apply Forall_Exists_neg in Hall.
  split; intros Hex; exfalso; apply Hall.
  - exact Hex.
  - unfold spec_blocks in Hex. rewrite <- Hm in Hex. exact Hex.
Qed.

(** *** The partition of the input *)

Lemma firstn_then_next {A : Type} (a b : nat) (l : list A) :
  firstn a l ++ firstn b (skipn a l) = firstn (a + b) l.
Proof.
  rewrite firstn_skipn_comm.
  replace (firstn a l) with (firstn a (firstn (a + b) l)).
  - apply firstn_skipn.
  - rewrite firstn_firstn. f_equal. lia.
Qed.

Lemma spec_block_src (data : list byte) (nbytes level : Z) (i : nat) :
  c_src (spec_block data nbytes level i) =
  firstn (Z.to_nat (Z.min (nbytes - LZ4_BLOCKSIZE * Z.of_nat i)
                          LZ4_BLOCKSIZE))
         (skipn (Z.to_nat (LZ4_BLOCKSIZE * Z.of_nat i)) data).
Proof.
  unfold spec_block, region. cbn [c_src].
  destruct (Z.ltb_spec (LZ4_BLOCKSIZE * Z.of_nat i) 0) as [H | H].
  - change LZ4_BLOCKSIZE with 1048576 in H. lia.
  - reflexivity.
Qed.

Lemma spec_blocks_cover (data : list byte) (level : Z) (k : nat) :
  concat (map (fun i => c_src (spec_block data (Z.of_nat (length data))
                                          level i)) (seq 0 k))
  = firstn (Z.to_nat (LZ4_BLOCKSIZE * Z.of_nat k)) data.
Proof.
  induction k as [ | k IH].
  - reflexivity.
  - rewrite seq_S, map_app, concat_app, IH. cbn [plus map concat].
    rewrite app_nil_r, spec_block_src, firstn_then_next.
    change LZ4_BLOCKSIZE with 1048576.
    destruct (Z.le_gt_cases 1048576
                (Z.of_nat (length data) - 1048576 * Z.of_nat k)) as [H | H].
    + f_equal. lia.
    + rewrite !firstn_all2 by lia. reflexivity.
Qed.

Lemma spec_blocks_length (data : list byte) (nbytes level : Z) :
  length (spec_blocks data nbytes level) = spec_block_count nbytes.
Proof. unfold spec_blocks. rewrite length_map, length_seq. reflexivity. Qed.

Lemma spec_blocks_nth (data : list byte) (nbytes level : Z)
    (i : nat) (d : call) :
  (i < spec_block_count nbytes)%nat ->
  nth i (spec_blocks data nbytes level) d = spec_block data nbytes level i.
Proof.
  intros Hi. unfold spec_blocks.
  rewrite (nth_indep _ d (spec_block data nbytes level 0%nat))
    by (rewrite length_map, length_seq; exact Hi).
  rewrite map_nth, seq_nth by exact Hi. reflexivity.
Qed.

(** Sizes of the blocks of the partition of a [QByteArray]: every block
    before the last has [LZ4_BLOCKSIZE] bytes, the last has the rest. *)
Lemma spec_block_sizes (data : list byte) (level : Z) (i : nat) :
  let N := Z.of_nat (length data) in
  let c := spec_block data N level i in
  (i < spec_block_count N)%nat ->
  Z.of_nat (length (c_src c)) = c_srclen c /\
  0 < c_srclen c <= LZ4_BLOCKSIZE /\
  ((S i < spec_block_count N)%nat -> c_srclen c = LZ4_BLOCKSIZE) /\
  ((S i = spec_block_count N)%nat ->
   c_srclen c = N - LZ4_BLOCKSIZE * Z.of_nat i).
Proof.
  clear LZ4_compress_fast. intros N c Hi.
  assert (HN : 0 < N).
  { destruct (Z.le_gt_cases N 0) as [H | H]; [ | lia ].
    pose proof (block_index_reaches_count N 0 ltac:(change LZ4_BLOCKSIZE with 1048576; lia)).
    unfold spec_block_count in Hi. lia. }
  pose proof (spec_block_count_bounds N HN) as [Hlo Hhi].
  unfold c. rewrite spec_block_src. unfold spec_block. cbn [c_srclen].
  rewrite length_firstn, length_skipn. fold N.
  change LZ4_BLOCKSIZE with 1048576 in *.
  repeat split; try lia.
Qed.

Local Abbreviation lz4Compress_ba :=
  (lz4Compress_ba LZ4_compressBound LZ4_compress_fast).

(** C5 (amended). For an input of length [N > 0] that the bound function
    accepts ([LZ4_compressBound(N) >= 1]) and whose blocks all compress
    successfully, the stream is the concatenation of exactly
    [ceil(N / 1048576)] length-prefixed records, one per block; the
    blocks, in order, make up the input; every block except the last
    covers exactly 1048576 bytes and the last covers the remainder. *)
Theorem lz4Compress_block_count (data : list byte) (level : Z) :
  let N := Z.of_nat (length data) in
  N <= INT_MAX ->
  0 < N ->
  1 <= LZ4_compressBound N ->
  exists (stream : list byte) (calls : list call),
    lz4Compress_ba data level = Some (stream, calls) /\
    (Forall (fun c => ~ failed c) calls ->
     stream = concat (map frame calls) /\
     length calls = Z.to_nat ((N + LZ4_BLOCKSIZE - 1) / LZ4_BLOCKSIZE) /\
     concat (map c_src calls) = data /\
     forall i : nat, (i < length calls)%nat ->
       let c := nth i calls (mkCall [] 0 0 0) in
       Z.of_nat (length (c_src c)) = c_srclen c /\
       ((S i < length calls)%nat -> c_srclen c = LZ4_BLOCKSIZE) /\
       ((S i = length calls)%nat ->
        c_srclen c = N - LZ4_BLOCKSIZE * Z.of_nat i)).
Proof.
  intros N HNmax HNpos Hbound.
  assert (Hint : is_int N) by (unfold is_int, INT_MIN; lia).
  unfold lz4Compress_ba. fold N.
  destruct (lz4Compress_spec data N level Hint)
    as (r & m & Hrun & _ & Hres).
  cbn zeta in Hrun, Hres.
  exists r, (map (spec_block data N level) (seq 0 m)).
  split; [ exact Hrun | ]. intros Hok.
  destruct Hres as [(Hb & _) | [(_ & Hex & _) | (_ & _ & Hr & Hm)]].
  - lia.
  - apply Forall_Exists_neg in Hok. contradiction.
  - subst m. fold (spec_blocks data N level).
    pose proof (spec_block_count_bounds N HNpos) as [_ Hhi].
    split; [ exact Hr | ]. split; [ apply spec_blocks_length | ].
    split.
    + unfold spec_blocks. rewrite map_map. unfold N.
      rewrite spec_blocks_cover. apply firstn_all2. fold N. lia.
    + intros i Hi. rewrite spec_blocks_length in *.
      rewrite spec_blocks_nth by exact Hi.
      destruct (spec_block_sizes data level i Hi) as (H1 & _ & H3 & H4).
      auto.
Qed.

End CompressFacts.

(** ** The decompression loop *)

Lemma skipn_length_app {A : Type} (l1 l2 : list A) :
  skipn (length l1) (l1 ++ l2) = l2.
Proof. induction l1; simpl; auto. Qed.

Lemma firstn_length_app {A : Type} (l1 l2 : list A) :
  firstn (length l1) (l1 ++ l2) = l1.
Proof. induction l1; simpl; f_equal; auto. Qed.

(** A successful read of a prefix consumed four bytes of the device. *)
Lemma read_int32_nonzero (dev : list byte) (pos : nat) (v : Z) (pos1 : nat) :
  read_int32 dev pos = (v, pos1) ->
  v <> 0 ->
  pos1 = (pos + 4)%nat /\ (pos + 4 <= length dev)%nat.
Proof.
  unfold read_int32. intros H Hv.
  destruct (skipn pos dev) as [ | b0 [ | b1 [ | b2 [ | b3 t]]]] eqn:E;
    inversion H; subst; try contradiction.
  split; [ reflexivity | ].
  apply (f_equal (@length byte)) in E. rewrite length_skipn in E.
  simpl in E. lia.
Qed.

(** Reading the prefix written for an [int] at the cursor. *)
Lemma read_int32_put (pre rest : list byte) (v : Z) :
  is_int v ->
  read_int32 (pre ++ put_int32 v ++ rest) (length pre)
  = (v, (length pre + 4)%nat).
Proof.
  intros Hv. unfold read_int32. rewrite skipn_length_app.
  pose proof (get_put_int32 v rest Hv) as H.
  unfold put_int32 in *. cbn [app] in *. rewrite H. reflexivity.
Qed.

Section UncompressFacts.

Variable LZ4_compressBound : Z -> Z.
Variable LZ4_decompress_safe : list byte -> Z -> Z -> Z * list byte.

Local Abbreviation uncompress_loop :=
  (uncompress_loop LZ4_compressBound LZ4_decompress_safe).
Local Abbreviation lz4Uncompress :=
  (lz4Uncompress LZ4_compressBound LZ4_decompress_safe).
Local Abbreviation bad := (bad_prefix LZ4_compressBound).
Local Abbreviation CompressBoundSize :=
  (CompressBoundSize LZ4_compressBound).

Lemma uncompress_loop_exit (fuel : nat) (mem dev : list byte) (nbytes : Z)
    (pos : nat) (readlen : Z) (ret : list byte) (log : list prefix) :
  nbytes <= readlen ->
  uncompress_loop fuel mem dev nbytes pos readlen ret log = Some (ret, log).
Proof.
  intros H. apply Z.ltb_ge in H.
  destruct fuel; simpl; rewrite H; reflexivity.
Qed.

(** The loop returns whenever the fuel exceeds what is left of the
    device, and a prefix that fails the validation empties the result. *)
Lemma uncompress_loop_total (mem dev : list byte) (nbytes : Z) :
  forall (fuel pos : nat) (readlen : Z) (ret : list byte)
         (log : list prefix),
    (pos <= length dev)%nat ->
    (length dev - pos < fuel)%nat ->
    exists (r : list byte) (seen : list prefix),
      uncompress_loop fuel mem dev nbytes pos readlen ret log
        = Some (r, log ++ seen) /\
      (Exists bad seen -> r = []).
Proof.
  induction fuel as [ | fuel IH]; intros pos readlen ret log Hpos Hfuel.
  - lia.
  - cbn [uncompress_loop].
    destruct (Z.ltb_spec readlen nbytes) as [Hlt | Hge].
    2:{ exists ret, []. rewrite app_nil_r. split; [ reflexivity | ].
        intros H. inversion H. }
    destruct (read_int32 dev pos) as [srclen pos1] eqn:Er.
    set (p := mkPrefix (to_int (readlen + 4)) srclen).
    destruct ((srclen <=? 0) || (CompressBoundSize <? srclen)) eqn:Ebad.
    { exists [], [p]. split; [ reflexivity | auto ]. }
    apply orb_false_iff in Ebad. destruct Ebad as [E1 E2].
    apply Z.leb_gt in E1. apply Z.ltb_ge in E2.
    destruct (read_int32_nonzero dev pos srclen pos1 Er ltac:(lia))
      as [Hp1 Hlen].
    destruct (LZ4_decompress_safe _ _ _) as [rv dst].
    destruct (0 <? rv).
    2:{ exists [], [p]. split; [ reflexivity | auto ]. }
    destruct (IH (skipRawData dev pos1 srclen)
                 (to_int (to_int (readlen + 4) + srclen))
                 (ret ++ resize rv dst) (log ++ [p]))
      as (r & seen & Hrun & Hres).
    + unfold skipRawData. lia.
    + unfold skipRawData. lia.
    + exists r, (p :: seen). split.
      * rewrite Hrun, <- app_assoc. reflexivity.
      * intros Hex. apply Hres. inversion Hex as [? ? Hp | ? ? Htl]; subst.
        -- unfold bad_prefix in Hp. simpl in Hp. lia.
        -- exact Htl.
Qed.

(** C3. [lz4Uncompress] always returns, and whenever one of the length
    prefixes it read is zero, negative as a signed 32-bit value, or
    greater than [LZ4_compressBound(LZ4_BLOCKSIZE)], everything
    accumulated is dropped and the empty byte sequence is returned. *)
Theorem lz4Uncompress_bad_prefix_empty (mem : list byte) (nbytes : Z) :
  exists (r : list byte) (log : list prefix),
    lz4Uncompress mem nbytes = Some (r, log) /\
    (Exists bad log -> r = []).
Proof.
  unfold lz4Uncompress.
  destruct (uncompress_loop_total mem (firstn (Z.to_nat nbytes) mem) nbytes
              (S (Z.to_nat nbytes)) 0 0 [] [])
    as (r & seen & Hrun & Hres).
  - lia.
  - rewrite length_firstn. lia.
  - exists r, seen. split; [ exact Hrun | exact Hres ].
Qed.

(** No test compares a declared length with what is left of the input:
    when the first record declares more bytes than remain and the
    decompressor, reading on past the input, reports success, its output
    is returned. *)
Lemma lz4Uncompress_overrun_first_record (nbytes : Z)
    (b0 b1 b2 b3 : byte) (rest : list byte) :
  let mem := b0 :: b1 :: b2 :: b3 :: rest in
  let srclen := get_int32 b0 b1 b2 b3 in
  let res := LZ4_decompress_safe (region mem 4 srclen) srclen LZ4_BLOCKSIZE in
  4 <= nbytes ->
  0 < srclen <= CompressBoundSize ->
  nbytes - 4 < srclen ->
  4 + srclen <= INT_MAX ->
  0 < fst res ->
  lz4Uncompress mem nbytes
  = Some (resize (fst res) (snd res), [mkPrefix 4 srclen]).
Proof.
  intros mem srclen res Hn Hsl Hover Hmax Hrv.
  unfold lz4Uncompress. cbn [uncompress_loop].
  destruct (Z.ltb_spec 0 nbytes) as [_ | H]; [ | lia ].
  assert (Hdev : firstn (Z.to_nat nbytes) mem
                 = b0 :: b1 :: b2 :: b3 :: firstn (Z.to_nat (nbytes - 4)) rest).
  { replace (Z.to_nat nbytes) with (4 + Z.to_nat (nbytes - 4))%nat by lia.
    reflexivity. }
  rewrite Hdev.
  change (read_int32 (b0 :: b1 :: b2 :: b3 :: firstn (Z.to_nat (nbytes - 4)) rest) 0)
    with (srclen, 4%nat).
  cbn beta iota. change (to_int (0 + 4)) with 4.
  destruct (Z.leb_spec srclen 0) as [H | _]; [ lia | ].
  destruct (Z.ltb_spec CompressBoundSize srclen) as [H | _]; [ lia | ].
  cbn [orb]. fold res.
  destruct res as [rv dst]. cbn [fst snd] in *.
  destruct (Z.ltb_spec 0 rv) as [_ | H]; [ | lia ].
  rewrite to_int_small by (unfold is_int, INT_MIN, INT_MAX in *; lia).
  apply uncompress_loop_exit. lia.
Qed.

End UncompressFacts.

(** ** Round trip *)

Section RoundTripFacts.

Variable LZ4_compressBound : Z -> Z.
Variable LZ4_compress_fast : list byte -> Z -> Z -> Z -> Z * list byte.
Variable LZ4_decompress_safe : list byte -> Z -> Z -> Z * list byte.

Local Abbreviation uncompress_loop :=
  (uncompress_loop LZ4_compressBound LZ4_decompress_safe).
Local Abbreviation lz4Uncompress_ba :=
  (lz4Uncompress_ba LZ4_compressBound LZ4_decompress_safe).
Local Abbreviation lz4Compress_ba :=
  (lz4Compress_ba LZ4_compressBound LZ4_compress_fast).
Local Abbreviation failed := (call_failed LZ4_compress_fast).
Local Abbreviation frame := (frame LZ4_compress_fast).
Local Abbreviation block_ok :=
  (block_ok LZ4_compressBound LZ4_compress_fast LZ4_decompress_safe).
Local Abbreviation spec_block := (spec_block LZ4_compressBound).

Lemma length_frame (c : call) :
  ~ failed c ->
  Z.of_nat (length (frame c)) = 4 + fst (run_call LZ4_compress_fast c).
Proof.
  unfold call_failed. intros H. rewrite frame_eq, length_app, length_resize.
  rewrite length_put_int32. lia.
Qed.

(** Decoding a run of frames: each frame gives back the source bytes of
    its invocation. [pre] is the part of the stream already consumed,
    [tail] the memory that follows the stream. *)
Lemma uncompress_frames (tail : list byte) :
  forall (cs : list call) (pre : list byte) (fuel : nat)
         (ret : list byte) (log : list prefix),
    let stream := pre ++ concat (map frame cs) in
    Forall block_ok cs ->
    Forall (fun c => 0 < c_srclen c) cs ->
    Z.of_nat (length stream) <= INT_MAX ->
    (length (concat (map frame cs)) < fuel)%nat ->
    exists log',
      uncompress_loop fuel (stream ++ tail) stream
                      (Z.of_nat (length stream))
                      (length pre) (Z.of_nat (length pre)) ret log
      = Some (ret ++ concat (map c_src cs), log').
Proof.
  induction cs as [ | c cs IH];
    intros pre fuel ret log stream Hok Hlen Hmax Hfuel.
  - exists log. unfold stream. cbn [map concat]. rewrite !app_nil_r.
    apply uncompress_loop_exit. lia.
  - inversion Hok as [ | ? ? (Hnf & Hbnd & Hrt) Hok']; subst.
    inversion Hlen as [ | ? ? Hsl Hlen']; subst.
    pose proof (length_frame c Hnf) as Hfl.
    pose proof (frame_eq LZ4_compress_fast c) as Hfr.
    unfold call_failed, within_block_bound, block_round_trip in *.
    unfold run_call in *.
    destruct (LZ4_compress_fast (c_src c) (c_srclen c) (c_cap c) (c_level c))
      as [rv dst] eqn:Erun.
    cbn [fst snd] in *.
    set (rest := concat (map frame cs)) in *.
    assert (Hstream : stream = pre ++ put_int32 rv ++ resize rv dst ++ rest).
    { unfold stream. cbn [map concat]. fold rest. rewrite Hfr.
      rewrite <- app_assoc. reflexivity. }
    assert (Hsl' : Z.of_nat (length stream)
                   = Z.of_nat (length pre) + 4 + rv + Z.of_nat (length rest)).
    { rewrite Hstream, !length_app, length_put_int32, length_resize. lia. }
    assert (Hrvint : is_int rv) by (unfold is_int, INT_MIN, INT_MAX in *; lia).
    destruct fuel as [ | fuel].
    { exfalso. lia. }
    cbn [uncompress_loop].
    destruct (Z.ltb_spec (Z.of_nat (length pre)) (Z.of_nat (length stream)))
      as [_ | Hge]; [ | lia ].
    clearbody stream.
    replace (read_int32 stream (length pre)) with (rv, (length pre + 4)%nat)
      by (rewrite Hstream; symmetry; apply read_int32_put; exact Hrvint).
    rewrite (to_int_small (Z.of_nat (length pre) + 4))
      by (unfold is_int, INT_MIN, INT_MAX in *; lia).
    rewrite (to_int_small (Z.of_nat (length pre) + 4 + rv))
      by (unfold is_int, INT_MIN, INT_MAX in *; lia).
    destruct (Z.leb_spec rv 0) as [Hbad | _]; [ lia | ].
    destruct (Z.ltb_spec (CompressBoundSize LZ4_compressBound) rv)
      as [Hbad | _]; [ lia | ].
    cbn [orb].
    assert (Hregion : region (stream ++ tail) (Z.of_nat (length pre) + 4) rv
                      = resize rv dst).
    { unfold region.
      destruct (Z.ltb_spec (Z.of_nat (length pre) + 4) 0); [ lia | ].
      replace (Z.to_nat (Z.of_nat (length pre) + 4))
        with (length (pre ++ put_int32 rv))
        by (rewrite length_app, length_put_int32; lia).
      rewrite Hstream.
      replace ((pre ++ put_int32 rv ++ resize rv dst ++ rest) ++ tail)
        with ((pre ++ put_int32 rv) ++ resize rv dst ++ rest ++ tail)
        by (rewrite <- !app_assoc; reflexivity).
      rewrite skipn_length_app.
      rewrite <- (length_resize rv dst) at 1.
      apply firstn_length_app. }
    rewrite Hregion.
    destruct (LZ4_decompress_safe (resize rv dst) rv LZ4_BLOCKSIZE)
      as [n out].
    destruct Hrt as [Hn Hout].
    destruct (Z.ltb_spec 0 n) as [_ | Hbad]; [ | lia ].
    rewrite Hout.
    assert (Hpre' : length (pre ++ frame c)
                    = (length pre + 4 + Z.to_nat rv)%nat).
    { rewrite Hfr, !length_app, length_put_int32, length_resize. lia. }
    assert (Hstream' : stream = (pre ++ frame c) ++ rest).
    { rewrite Hstream, Hfr, <- !app_assoc. reflexivity. }
    replace (skipRawData stream (length pre + 4) rv)
      with (length (pre ++ frame c))
      by (unfold skipRawData; lia).
    replace (Z.of_nat (length pre) + 4 + rv)
      with (Z.of_nat (length (pre ++ frame c))) by lia.
    destruct (IH (pre ++ frame c) fuel (ret ++ c_src c)
                 (log ++ [mkPrefix (Z.of_nat (length pre) + 4) rv]))
      as (log' & Hrun).
    + exact Hok'.
    + exact Hlen'.
    + rewrite <- Hstream'. exact Hmax.
    + cbn [map concat] in Hfuel. fold rest in Hfuel.
      rewrite length_app in Hfuel. lia.
    + exists log'. rewrite <- Hstream' in Hrun. rewrite Hrun.
      cbn [map concat]. rewrite <- app_assoc. reflexivity.
Qed.

Local Abbreviation spec_blocks := (spec_blocks LZ4_compressBound).

(** Decoding the frames of all the blocks of an input gives the input. *)
Lemma decode_spec_blocks (data : list byte) (level : Z) :
  let cs := spec_blocks data (Z.of_nat (length data)) level in
  let stream := concat (map frame cs) in
  Forall block_ok cs ->
  Z.of_nat (length stream) <= INT_MAX ->
  exists log, lz4Uncompress_ba stream = Some (data, log).
Proof.
  intros cs stream Hok Hmax.
  set (N := Z.of_nat (length data)) in *.
  assert (Hsizes : Forall (fun c => 0 < c_srclen c) cs).
  { apply Forall_forall. intros c Hin.
    apply in_map_iff in Hin. destruct Hin as (i & Hc & Hi).
    apply in_seq in Hi. subst c.
    destruct (spec_block_sizes LZ4_compressBound data level i)
      as (_ & Hpos & _); [ fold N; lia | ].
    fold N in Hpos. lia. }
  destruct (uncompress_frames [x00] cs [] (S (length stream)) [] []
              Hok Hsizes) as (log' & Hdec).
  - exact Hmax.
  - fold stream. lia.
  - cbn [app length] in Hdec. fold stream in Hdec.
    change (Z.of_nat 0) with 0 in Hdec.
    exists log'. unfold lz4Uncompress_ba, lz4Uncompress.
    rewrite Nat2Z.id, firstn_length_app, Hdec. f_equal. f_equal.
    unfold cs, spec_blocks. rewrite map_map. unfold N.
    rewrite (spec_blocks_cover LZ4_compressBound).
    apply firstn_all2. fold N.
    destruct (Z.le_gt_cases N 0) as [H0 | H0]; [ lia | ].
    pose proof (spec_block_count_bounds N H0) as [_ Hhi]. lia.
Qed.

(** C1 (amended). For every byte sequence [data] whose length the bound
    function accepts ([LZ4_compressBound(N) >= 1] when [N > 0]) and every
    level, if the compression of every block succeeds (and the block
    codec keeps its contract on those blocks), then
    [lz4Uncompress(lz4Compress(data, level))] is [data], byte for byte;
    the empty sequence is included. *)
Theorem lz4_round_trip (data : list byte) (level : Z) :
  let N := Z.of_nat (length data) in
  N <= INT_MAX ->
  (0 < N -> 1 <= LZ4_compressBound N) ->
  exists (stream : list byte) (calls : list call),
    lz4Compress_ba data level = Some (stream, calls) /\
    (Forall block_ok calls ->
     Z.of_nat (length stream) <= INT_MAX ->
     exists log, lz4Uncompress_ba stream = Some (data, log)).
Proof.
  intros N HNmax Hbound.
  assert (Hint : is_int N) by (unfold is_int, INT_MIN; lia).
  unfold lz4Compress_ba. fold N.
  destruct (lz4Compress_spec LZ4_compressBound LZ4_compress_fast
              data N level Hint) as (r & m & Hrun & _ & Hres).
  cbn zeta in Hrun, Hres.
  exists r, (map (spec_block data N level) (seq 0 m)).
  split; [ exact Hrun | ]. intros Hok Hmax.
  destruct Hres as [(Hb & _ & Hr) | [(_ & Hex & _) | (_ & _ & Hr & Hm)]].
  - (* the bound refuses the length: only the empty input gets here *)
    assert (HN0 : N = 0) by lia.
    assert (Hd : data = [])
      by (destruct data; [ reflexivity | simpl in N; lia ]).
    subst r. exists []. rewrite Hd. reflexivity.
  - exfalso. apply Forall_Exists_neg in Hex; [ exact Hex | ].
    apply Forall_impl with (2 := Hok). intros c (Hnf & _). exact Hnf.
  - subst m r. apply decode_spec_blocks; assumption.
Qed.

End RoundTripFacts.

(* ------------------------------------------------------------------ *)
(** ** The codec on concrete inputs *)

Lemma lz4Compress_bound_refused
    (bound : Z -> Z) (comp : list byte -> Z -> Z -> Z -> Z * list byte)
    (data : list byte) (nbytes level : Z) :
  bound nbytes < 1 ->
  lz4Compress bound comp data nbytes level = Some ([], []).
Proof.
  intros H. unfold lz4Compress. apply Z.ltb_lt in H. rewrite H. reflexivity.
Qed.

Lemma oversize_input_length :
  Z.of_nat (length oversize_input) = 2113929217.
Proof.
  unfold oversize_input. rewrite repeat_length. apply Z2Nat.id. lia.
Qed.

Lemma lz4Compress_oversize_input (level : Z) :
  LiteralLZ4.lz4Compress_ba oversize_input level = Some ([], []).
Proof.
  unfold LiteralLZ4.lz4Compress_ba, lz4Compress_ba.
  rewrite oversize_input_length.
  apply lz4Compress_bound_refused. reflexivity.
Qed.

Example lz4Compress_three_bytes :
  LiteralLZ4.lz4Compress_ba [x01; x02; x03] 1
  = Some ([x04; x00; x00; x00; x30; x01; x02; x03],
          [mkCall [x01; x02; x03] 3 19 1]).
Proof. reflexivity. Qed.

Example lz4Uncompress_three_bytes :
  LiteralLZ4.lz4Uncompress_ba [x04; x00; x00; x00; x30; x01; x02; x03]
  = Some ([x01; x02; x03], [mkPrefix 4 4]).
Proof. reflexivity. Qed.

Lemma lz4Compress_nonpositive_length_witness :
  -3 <= 0 /\
  lz4Compress LiteralLZ4.LZ4_compressBound LiteralLZ4.LZ4_compress_fast
              [x41; x42] (-3) 1 = Some ([], []).
Proof.
  split; [ lia | ].
  apply (lz4Compress_nonpositive_length LiteralLZ4.LZ4_compressBound
           LiteralLZ4.LZ4_compress_fast [x41; x42] (-3) 1).
  lia.
Defined.

Lemma lz4Compress_failure_empty_witness :
  is_int 2 /\
  exists (r : list byte) (calls : list call),
    lz4Compress LiteralLZ4.LZ4_compressBound failing_compress_fast
                [x41; x42] 2 1 = Some (r, calls) /\ r = [].
Proof.
  split; [ unfold is_int, INT_MIN, INT_MAX; lia | ].
  destruct (lz4Compress_failure_empty LiteralLZ4.LZ4_compressBound
              failing_compress_fast [x41; x42] 2 1)
    as (r & calls & Hrun & _ & Hblocks).
  - unfold is_int, INT_MIN, INT_MAX. lia.
  - exists r, calls. split; [ exact Hrun | ].
    apply Hblocks. apply Exists_cons_hd.
    unfold call_failed, run_call, failing_compress_fast. simpl. lia.
Defined.

Lemma lz4Uncompress_bad_prefix_empty_witness :
  exists (r : list byte) (log : list prefix),
    lz4Uncompress LiteralLZ4.LZ4_compressBound LiteralLZ4.LZ4_decompress_safe
                  [x02; x00; x00; x00; x10; x07; xff; xff; xff; xff; x10; x09]
                  12 = Some (r, log) /\ r = [].
Proof.
  destruct (lz4Uncompress_bad_prefix_empty LiteralLZ4.LZ4_compressBound
              LiteralLZ4.LZ4_decompress_safe
              [x02; x00; x00; x00; x10; x07; xff; xff; xff; xff; x10; x09] 12)
    as (r & log & Hrun & Hbad).
  exists r, log. split; [ exact Hrun | ].
  apply Hbad.
  assert (Hlog : log = [mkPrefix 4 2; mkPrefix 10 (-1)]).
  { vm_compute in Hrun. inversion Hrun. reflexivity. }
  rewrite Hlog. apply Exists_cons_tl. apply Exists_cons_hd.
  left. simpl. lia.
Defined.

Lemma lz4Compress_block_count_witness :
  exists (stream : list byte) (calls : list call),
    LiteralLZ4.lz4Compress_ba [x01; x02; x03] 1 = Some (stream, calls) /\
    stream = concat (map (frame LiteralLZ4.LZ4_compress_fast) calls) /\
    length calls = 1%nat /\
    concat (map c_src calls) = [x01; x02; x03].
Proof.
  destruct (lz4Compress_block_count LiteralLZ4.LZ4_compressBound
              LiteralLZ4.LZ4_compress_fast [x01; x02; x03] 1)
    as (stream & calls & Hrun & Hres).
  - vm_compute. discriminate.
  - reflexivity.
  - vm_compute. discriminate.
  - exists stream, calls. split; [ exact Hrun | ].
    assert (Hcalls : calls = [mkCall [x01; x02; x03] 3 19 1]).
    { vm_compute in Hrun. inversion Hrun. reflexivity. }
    destruct Hres as (Hs & Hn & Hd & _).
    + rewrite Hcalls. constructor; [ | constructor ].
      vm_compute. intros H. apply H. reflexivity.
    + split; [ exact Hs | ]. split; [ | exact Hd ].
      rewrite Hn. reflexivity.
Defined.

Lemma lz4_round_trip_witness :
  exists (stream : list byte) (calls : list call) (log : list prefix),
    LiteralLZ4.lz4Compress_ba [x01; x02; x03] 1 = Some (stream, calls) /\
    LiteralLZ4.lz4Uncompress_ba stream = Some ([x01; x02; x03], log).
Proof.
  destruct (lz4_round_trip LiteralLZ4.LZ4_compressBound
              LiteralLZ4.LZ4_compress_fast LiteralLZ4.LZ4_decompress_safe
              [x01; x02; x03] 1)
    as (stream & calls & Hrun & Hres).
  - vm_compute. discriminate.
  - intros _. vm_compute. discriminate.
  - assert (Heq : stream = [x04; x00; x00; x00; x30; x01; x02; x03]
                  /\ calls = [mkCall [x01; x02; x03] 3 19 1]).
    { vm_compute in Hrun. inversion Hrun. split; reflexivity. }
    destruct Heq as [Hs Hc].
    destruct Hres as [log Hdec].
    + rewrite Hc. constructor; [ | constructor ].
      unfold block_ok, call_failed, within_block_bound, block_round_trip.
      vm_compute. split; [ | split; [ | split; reflexivity ] ].
      * intros H. apply H. reflexivity.
      * discriminate.
    + rewrite Hs. vm_compute. discriminate.
    + exists stream, calls, log. split; [ exact Hrun | exact Hdec ].
Defined.

(** C1 (as stated, refuted). An input longer than [LZ4_MAX_INPUT_SIZE] is
    refused before any block is compressed: the stream is empty, no block
    compression failed, and decoding the stream does not give the input
    back. *)
Lemma lz4_round_trip_fails_oversize :
  Z.of_nat (length oversize_input) <= INT_MAX /\
  ~ (exists (stream : list byte) (calls : list call),
        LiteralLZ4.lz4Compress_ba oversize_input 1 = Some (stream, calls) /\
        (Forall (block_ok LiteralLZ4.LZ4_compressBound
                          LiteralLZ4.LZ4_compress_fast
                          LiteralLZ4.LZ4_decompress_safe) calls ->
         Z.of_nat (length stream) <= INT_MAX ->
         exists log,
           LiteralLZ4.lz4Uncompress_ba stream = Some (oversize_input, log))).
Proof.
  split.
  - rewrite oversize_input_length. unfold INT_MAX. lia.
  - intros (stream & calls & Hrun & Hres).
    rewrite lz4Compress_oversize_input in Hrun. inversion Hrun; subst.
    destruct Hres as [log Hdec].
    + constructor.
    + simpl. unfold INT_MAX. lia.
    + pose proof oversize_input_length as Hlen.
      revert Hdec Hlen. generalize oversize_input. intros big Hdec Hlen.
      assert (Hbig : big = []).
      { change (LiteralLZ4.lz4Uncompress_ba [])
          with (Some (@nil byte, @nil prefix)) in Hdec.
        inversion Hdec. reflexivity. }
      rewrite Hbig in Hlen. simpl in Hlen. lia.
Qed.

(** C5 (as stated, refuted). For an input of 2113929217 bytes, longer than
    [LZ4_MAX_INPUT_SIZE], no block compression fails and the stream holds
    no record, while [ceil(N / 1048576)] is 2017. *)
Lemma lz4Compress_oversize_no_records :
  0 < Z.of_nat (length oversize_input) <= INT_MAX /\
  ~ (exists (stream : list byte) (calls : list call),
        LiteralLZ4.lz4Compress_ba oversize_input 1 = Some (stream, calls) /\
        (Forall (fun c => ~ call_failed LiteralLZ4.LZ4_compress_fast c) calls ->
         length calls
         = Z.to_nat ((Z.of_nat (length oversize_input) + LZ4_BLOCKSIZE - 1)
                     / LZ4_BLOCKSIZE))).
Proof.
  split.
  - rewrite oversize_input_length. unfold INT_MAX. lia.
  - intros (stream & calls & Hrun & Hres).
    rewrite lz4Compress_oversize_input in Hrun. inversion Hrun; subst.
    specialize (Hres (Forall_nil _)).
    rewrite oversize_input_length in Hres.
    change ((2113929217 + LZ4_BLOCKSIZE - 1) / LZ4_BLOCKSIZE) with 2017 in Hres.
    simpl length in Hres. lia.
Qed.

(** C2 (code at the failing input). The 8-byte stream declares a payload
    of 5 bytes where 4 remain. [lz4Uncompress] hands the declared length
    to the decompressor, which reads the byte that follows the buffer (the
    terminator of the [QByteArray]); the call returns four bytes, the last
    of them that foreign byte, instead of the empty sequence. *)
Theorem lz4Uncompress_overrun_not_detected :
  LiteralLZ4.lz4Uncompress_ba [x05; x00; x00; x00; x40; x41; x42; x43]
  = Some ([x41; x42; x43; x00], [mkPrefix 4 5])
  /\ 5 > Z.of_nat (length [x05; x00; x00; x00; x40; x41; x42; x43]) - 4.
Proof. split; [ reflexivity | simpl; lia ]. Qed.

(** The example scenario of the specification: 2,000,000 bytes make two
    blocks, the second one covering the remaining 951,424 bytes. *)
Example spec_block_count_2000000 :
  spec_block_count 2000000 = 2%nat /\
  c_srclen (spec_block LiteralLZ4.LZ4_compressBound [] 2000000 1 0) = 1048576 /\
  c_srclen (spec_block LiteralLZ4.LZ4_compressBound [] 2000000 1 1) = 951424.
Proof. repeat split. Qed.

Example spec_block_count_boundaries :
  spec_block_count 1 = 1%nat /\
  spec_block_count 1048576 = 1%nat /\
  spec_block_count 1048577 = 2%nat.
Proof. repeat split. Qed.

(** A truncated prefix reads as zero and is rejected like a zero prefix. *)
Example lz4Uncompress_short_prefix :
  LiteralLZ4.lz4Uncompress_ba [x02; x00; x00; x00; x10; x07; x02; x00]
  = Some ([], [mkPrefix 4 2; mkPrefix 10 0]).
Proof. reflexivity. Qed.

(* ------------------------------------------------------------------ *)
(** ** The reference codec keeps the contract *)

Lemma resize_exact (buf : list byte) :
  resize (Z.of_nat (length buf)) buf = buf.
Proof.
  unfold resize. rewrite Nat2Z.id, firstn_all, Nat.sub_diag.
  apply app_nil_r.
Qed.

Lemma literal_put_length_length (fuel : nat) :
  forall m : Z,
    0 <= m -> m / 255 < Z.of_nat fuel ->
    Z.of_nat (length (LiteralLZ4.put_length fuel m)) = m / 255 + 1.
Proof.
  induction fuel as [ | fuel IH]; intros m Hm Hfuel.
  - assert (0 <= m / 255) by (apply Z.div_pos; lia). lia.
  - cbn [LiteralLZ4.put_length].
    destruct (Z.ltb_spec m 255) as [Hlt | Hge].
    + rewrite Z.div_small by lia. reflexivity.
    + cbn [length]. rewrite Nat2Z.inj_succ, IH.
      * Z.div_mod_to_equations. lia.
      * lia.
      * Z.div_mod_to_equations. lia.
Qed.

Lemma literal_get_put_length (fuel : nat) :
  forall (m acc : Z) (rest : list byte),
    0 <= m -> m / 255 < Z.of_nat fuel ->
    LiteralLZ4.get_length (LiteralLZ4.put_length fuel m ++ rest) acc
    = Some (acc + m, rest).
Proof.
  induction fuel as [ | fuel IH]; intros m acc rest Hm Hfuel.
  - assert (0 <= m / 255) by (apply Z.div_pos; lia). lia.
  - cbn [LiteralLZ4.put_length].
    destruct (Z.ltb_spec m 255) as [Hlt | Hge].
    + cbn [app LiteralLZ4.get_length]. rewrite byte_to_of_Z.
      rewrite Z.mod_small by lia.
      destruct (Z.eqb_spec m 255); [ lia | reflexivity ].
    + cbn [app LiteralLZ4.get_length].
      change (byte_to_Z xff) with 255. cbn [Z.eqb Pos.eqb].
      rewrite IH.
      * f_equal. f_equal. lia.
      * lia.
      * Z.div_mod_to_equations. lia.
Qed.

Lemma literal_encode_length (src : list byte) :
  let n := Z.of_nat (length src) in
  Z.of_nat (length (LiteralLZ4.encode src))
  = if n <? 15 then n + 1 else n + 2 + (n - 15) / 255.
Proof.
  intros n. unfold LiteralLZ4.encode. fold n.
  destruct (Z.ltb_spec n 15) as [Hlt | Hge].
  - cbn [length]. lia.
  - cbn [length]. rewrite length_app, Nat2Z.inj_succ, Nat2Z.inj_add.
    rewrite literal_put_length_length.
    + fold n. lia.
    + lia.
    + assert (0 <= n / 255) by (apply Z.div_pos; lia).
      rewrite Nat2Z.inj_succ, Z2Nat.id by assumption.
      Z.div_mod_to_equations. lia.
Qed.

Lemma literal_decode_encode (src : list byte) (size cap : Z) :
  Z.of_nat (length src) <= cap ->
  LiteralLZ4.LZ4_decompress_safe (LiteralLZ4.encode src) size cap
  = (Z.of_nat (length src), src).
Proof.
  intros Hcap. set (n := Z.of_nat (length src)) in *.
  unfold LiteralLZ4.encode. fold n.
  destruct (Z.ltb_spec n 15) as [Hlt | Hge].
  - unfold LiteralLZ4.LZ4_decompress_safe. rewrite byte_to_of_Z.
    rewrite (Z.mod_small (16 * n)) by lia.
    replace (16 * n / 16) with n by (Z.div_mod_to_equations; lia).
    destruct (Z.eqb_spec n 15); [ lia | ].
    fold n. rewrite Z.eqb_refl.
    destruct (Z.leb_spec n cap); [ reflexivity | lia ].
  - unfold LiteralLZ4.LZ4_decompress_safe.
    change (byte_to_Z xf0) with 240.
    change (240 / 16 =? 15) with true.
    rewrite literal_get_put_length.
    + replace (15 + (n - 15)) with n by lia.
      fold n. rewrite Z.eqb_refl.
      destruct (Z.leb_spec n cap); [ reflexivity | lia ].
    + lia.
    + assert (0 <= n / 255) by (apply Z.div_pos; lia).
      rewrite Nat2Z.inj_succ, Z2Nat.id by assumption.
      Z.div_mod_to_equations. lia.
Qed.

Lemma spec_blocks_concat (bound : Z -> Z) (data : list byte) (level : Z) :
  concat (map c_src (spec_blocks bound data (Z.of_nat (length data)) level))
  = data.
Proof.
  unfold spec_blocks. rewrite map_map, spec_blocks_cover.
  apply firstn_all2.
  destruct (Z.le_gt_cases (Z.of_nat (length data)) 0) as [H0 | H0]; [ lia | ].
  pose proof (spec_block_count_bounds _ H0) as [_ Hhi]. lia.
Qed.

Lemma literal_bound_value (n : Z) :
  0 <= n <= LiteralLZ4.LZ4_MAX_INPUT_SIZE ->
  LiteralLZ4.LZ4_compressBound n = n + n / 255 + 16.
Proof.
  unfold LiteralLZ4.LZ4_compressBound, LiteralLZ4.LZ4_MAX_INPUT_SIZE.
  intros H.
  destruct (Z.ltb_spec n 0); [ lia | ].
  destruct (Z.ltb_spec 2113929216 n); [ lia | ]. reflexivity.
Qed.

(** On every block of at most [LZ4_BLOCKSIZE] bytes the reference codec
    succeeds within the bound and its decompressor restores the block. *)
Lemma literal_block_ok (src : list byte) (level : Z) :
  0 < Z.of_nat (length src) <= LZ4_BLOCKSIZE ->
  block_ok LiteralLZ4.LZ4_compressBound LiteralLZ4.LZ4_compress_fast
           LiteralLZ4.LZ4_decompress_safe
           (mkCall src (Z.of_nat (length src))
                   (LiteralLZ4.LZ4_compressBound (Z.of_nat (length src)))
                   level)
  /\ Z.of_nat (length (frame LiteralLZ4.LZ4_compress_fast
                         (mkCall src (Z.of_nat (length src))
                            (LiteralLZ4.LZ4_compressBound
                               (Z.of_nat (length src))) level)))
     <= Z.of_nat (length src) + 4118.
Proof.
  change LZ4_BLOCKSIZE with 1048576. intros Hn.
  pose proof (literal_encode_length src) as Hlen. cbn zeta in Hlen.
  set (n := Z.of_nat (length src)) in *.
  assert (Hb : LiteralLZ4.LZ4_compressBound n = n + n / 255 + 16)
    by (apply literal_bound_value; unfold LiteralLZ4.LZ4_MAX_INPUT_SIZE; lia).
  assert (Henc : 0 < Z.of_nat (length (LiteralLZ4.encode src))
                 <= n + 4114
                 /\ Z.of_nat (length (LiteralLZ4.encode src))
                    <= n + n / 255 + 16).
  { rewrite Hlen. destruct (Z.ltb_spec n 15).
    - assert (0 <= n / 255) by (apply Z.div_pos; lia). lia.
    - Z.div_mod_to_equations. lia. }
  unfold block_ok, call_failed, within_block_bound, block_round_trip,
    frame, run_call.
  cbn [c_src c_srclen c_cap c_level].
  unfold LiteralLZ4.LZ4_compress_fast. rewrite Hb.
  destruct (Z.leb_spec (Z.of_nat (length (LiteralLZ4.encode src)))
                       (n + n / 255 + 16)) as [_ | Hgt]; [ | lia ].
  cbn [fst snd].
  change (CompressBoundSize LiteralLZ4.LZ4_compressBound) with 1052704.
  rewrite resize_exact, literal_decode_encode
    by (fold n; change LZ4_BLOCKSIZE with 1048576; lia).
  fold n. split; [ split; [ lia | split; [ lia | ] ] | ].
  - split; [ reflexivity | apply resize_exact ].
  - rewrite length_app, length_put_int32. lia.
Qed.

Lemma literal_spec_block_ok (data : list byte) (level : Z) (i : nat) :
  let c := spec_block LiteralLZ4.LZ4_compressBound data
                      (Z.of_nat (length data)) level i in
  (i < spec_block_count (Z.of_nat (length data)))%nat ->
  block_ok LiteralLZ4.LZ4_compressBound LiteralLZ4.LZ4_compress_fast
           LiteralLZ4.LZ4_decompress_safe c
  /\ Z.of_nat (length (frame LiteralLZ4.LZ4_compress_fast c))
     <= Z.of_nat (length (c_src c)) + 4118.
Proof.
  intros c Hi.
  destruct (spec_block_sizes LiteralLZ4.LZ4_compressBound data level i Hi)
    as (Hsrc & Hpos & _).
  fold c in Hsrc, Hpos.
  assert (Hc : c = mkCall (c_src c) (Z.of_nat (length (c_src c)))
                     (LiteralLZ4.LZ4_compressBound
                        (Z.of_nat (length (c_src c)))) level).
  { rewrite Hsrc. reflexivity. }
  rewrite Hc at 1 2. apply literal_block_ok. lia.
Qed.

Lemma frames_length_bound
    (comp : list byte -> Z -> Z -> Z -> Z * list byte) (k : Z)
    (cs : list call) :
  Forall (fun c => Z.of_nat (length (frame comp c))
                   <= Z.of_nat (length (c_src c)) + k) cs ->
  Z.of_nat (length (concat (map (frame comp) cs)))
  <= Z.of_nat (length (concat (map c_src cs))) + k * Z.of_nat (length cs).
Proof.
  induction 1 as [ | c cs Hc _ IH].
  - simpl. lia.
  - cbn [map concat length]. rewrite !length_app. lia.
Qed.

(** The LZ4 round trip holds without side conditions for the reference
    codec: every input that [LZ4_compressBound] accepts is compressed,
    and decompressing the stream gives the input back. *)
Theorem literal_lz4_round_trip (data : list byte) (level : Z) :
  Z.of_nat (length data) <= LiteralLZ4.LZ4_MAX_INPUT_SIZE ->
  exists (stream : list byte) (calls : list call) (log : list prefix),
    LiteralLZ4.lz4Compress_ba data level = Some (stream, calls) /\
    LiteralLZ4.lz4Uncompress_ba stream = Some (data, log).
Proof.
  unfold LiteralLZ4.LZ4_MAX_INPUT_SIZE. intros HN.
  set (N := Z.of_nat (length data)) in *.
  assert (Hint : is_int N) by (unfold is_int, INT_MIN, INT_MAX; lia).
  destruct (lz4Compress_spec LiteralLZ4.LZ4_compressBound
              LiteralLZ4.LZ4_compress_fast data N level Hint)
    as (r & m & Hrun & Hle & Hres).
  cbn zeta in Hrun, Hres.
  assert (Hall : forall k, (k <= spec_block_count N)%nat ->
            Forall (fun c =>
              block_ok LiteralLZ4.LZ4_compressBound
                       LiteralLZ4.LZ4_compress_fast
                       LiteralLZ4.LZ4_decompress_safe c
              /\ Z.of_nat (length (frame LiteralLZ4.LZ4_compress_fast c))
                 <= Z.of_nat (length (c_src c)) + 4118)
              (map (spec_block LiteralLZ4.LZ4_compressBound data N level)
                   (seq 0 k))).
  { intros k Hk. apply Forall_forall. intros c Hin.
    apply in_map_iff in Hin. destruct Hin as (i & Hc & Hi).
    apply in_seq in Hi. subst c. apply literal_spec_block_ok. fold N. lia. }
  destruct Hres as [(Hb & _) | [(_ & Hex & _) | (_ & _ & Hr & Hm)]].
  - rewrite literal_bound_value in Hb
      by (unfold LiteralLZ4.LZ4_MAX_INPUT_SIZE; lia).
    assert (0 <= N / 255) by (apply Z.div_pos; lia). lia.
  - exfalso. apply Forall_Exists_neg in Hex; [ exact Hex | ].
    apply Forall_impl with (2 := Hall m Hle).
    intros c ((Hnf & _) & _). exact Hnf.
  - subst m.
    specialize (Hall (spec_block_count N) (Nat.le_refl _)).
    fold (spec_blocks LiteralLZ4.LZ4_compressBound data N level) in Hall, Hr, Hrun.
    destruct (decode_spec_blocks LiteralLZ4.LZ4_compressBound
                LiteralLZ4.LZ4_compress_fast LiteralLZ4.LZ4_decompress_safe
                data level) as (log & Hdec).
    + fold N. apply Forall_impl with (2 := Hall). intros c [H _]. exact H.
    + fold N.
      pose proof (frames_length_bound LiteralLZ4.LZ4_compress_fast 4118
                    (spec_blocks LiteralLZ4.LZ4_compressBound data N level))
        as Hbnd.
      unfold N in Hbnd at 2. rewrite spec_blocks_concat in Hbnd.
      rewrite spec_blocks_length in Hbnd. fold N in Hbnd.
      assert (Hcount : Z.of_nat (spec_block_count N) <= 2016).
      { unfold spec_block_count. change LZ4_BLOCKSIZE with 1048576.
        assert (0 <= (N + 1048576 - 1) / 1048576)
          by (apply Z.div_pos; lia).
        rewrite Z2Nat.id by assumption.
        Z.div_mod_to_equations. lia. }
      unfold INT_MAX.
      assert (Z.of_nat (length (concat (map (frame LiteralLZ4.LZ4_compress_fast)
                 (spec_blocks LiteralLZ4.LZ4_compressBound data N level))))
              <= N + 4118 * Z.of_nat (spec_block_count N)).
      { apply Hbnd. apply Forall_impl with (2 := Hall). intros c [_ H]. exact H. }
      lia.
    + fold N in Hdec. rewrite <- Hr in Hdec.
      exists r, (spec_blocks LiteralLZ4.LZ4_compressBound data N level), log.
      split; [ exact Hrun | exact Hdec ].
Qed.

(* ================================================================== *)
(** * Further properties *)

(** ** The xorshift step *)

Lemma testbit_u32_high (t n : Z) :
  is_u32 t -> 32 <= n -> Z.testbit t n = false.
Proof.
  intros Ht Hn. rewrite <- (u32_small t Ht). unfold u32.
  change 4294967296 with (2 ^ 32). apply Z.mod_pow2_bits_high. lia.
Qed.

Lemma lxor_cancel_l (a b c : Z) : Z.lxor a b = Z.lxor a c -> b = c.
Proof.
  intros H. apply (f_equal (Z.lxor a)) in H.
  rewrite <- !Z.lxor_assoc, Z.lxor_nilpotent, !Z.lxor_0_l in H. exact H.
Qed.

(** [t ^ (t >> 8)] is undone by xoring the result shifted by 8, 16, 24. *)
Lemma undo_xor_shiftr8 (t : Z) :
  is_u32 t ->
  let u := Z.lxor t (Z.shiftr t 8) in
  Z.lxor (Z.lxor (Z.lxor u (Z.shiftr u 8)) (Z.shiftr u 16)) (Z.shiftr u 24)
  = t.
Proof.
  intros Ht u. unfold u. apply Z.bits_inj'. intros n Hn.
  rewrite !Z.lxor_spec, !Z.shiftr_spec, !Z.lxor_spec, !Z.shiftr_spec by lia.
  replace (n + 8 + 8) with (n + 16) by lia.
  replace (n + 16 + 8) with (n + 24) by lia.
  replace (n + 24 + 8) with (n + 32) by lia.
  rewrite (testbit_u32_high t (n + 32)) by (assumption || lia).
  destruct (Z.testbit t n), (Z.testbit t (n + 8)), (Z.testbit t (n + 16)),
    (Z.testbit t (n + 24)); reflexivity.
Qed.

Lemma testbit_xor_shiftl11 (x k : Z) :
  k < 32 ->
  Z.testbit (Z.lxor x (u32 (Z.shiftl x 11))) k
  = xorb (Z.testbit x k) (Z.testbit x (k - 11)).
Proof.
  intros Hk. destruct (Z.ltb_spec k 0) as [Hneg | Hpos].
  - rewrite !Z.testbit_neg_r by lia. reflexivity.
  - rewrite Z.lxor_spec. unfold u32. change 4294967296 with (2 ^ 32).
    rewrite Z.mod_pow2_bits_low by lia.
    rewrite Z.shiftl_spec by lia. reflexivity.
Qed.

(** [x ^ (x << 11)] on 32 bits is undone by xoring the result shifted
    left by 11 and 22. *)
Lemma undo_xor_shiftl11 (x : Z) :
  is_u32 x ->
  let t := Z.lxor x (u32 (Z.shiftl x 11)) in
  u32 (Z.lxor (Z.lxor t (Z.shiftl t 11)) (Z.shiftl t 22)) = x.
Proof.
  intros Hx t. apply Z.bits_inj'. intros n Hn.
  destruct (Z.ltb_spec n 32) as [Hlow | Hhigh].
  - unfold u32. change 4294967296 with (2 ^ 32).
    rewrite Z.mod_pow2_bits_low by lia.
    rewrite !Z.lxor_spec, !Z.shiftl_spec by lia. unfold t.
    rewrite !testbit_xor_shiftl11 by lia.
    replace (n - 11 - 11) with (n - 22) by lia.
    replace (n - 22 - 11) with (n - 33) by lia.
    rewrite (Z.testbit_neg_r x (n - 33)) by lia.
    destruct (Z.testbit x n), (Z.testbit x (n - 11)),
      (Z.testbit x (n - 22)); reflexivity.
  - rewrite (testbit_u32_high x n Hx Hhigh). unfold u32.
    change 4294967296 with (2 ^ 32). apply Z.mod_pow2_bits_high. lia.
Qed.

Lemma xor_shiftr8_injective (a b : Z) :
  is_u32 a -> is_u32 b ->
  Z.lxor a (Z.shiftr a 8) = Z.lxor b (Z.shiftr b 8) -> a = b.
Proof.
  intros Ha Hb H.
  rewrite <- (undo_xor_shiftr8 a Ha), <- (undo_xor_shiftr8 b Hb).
  cbn zeta. rewrite H. reflexivity.
Qed.

Lemma xor_shiftl11_injective (a b : Z) :
  is_u32 a -> is_u32 b ->
  Z.lxor a (u32 (Z.shiftl a 11)) = Z.lxor b (u32 (Z.shiftl b 11)) -> a = b.
Proof.
  intros Ha Hb H.
  rewrite <- (undo_xor_shiftl11 a Ha), <- (undo_xor_shiftl11 b Hb).
  cbn zeta. rewrite H. reflexivity.
Qed.

Lemma randXor128_state_injective (st1 st2 : Xor128.state) :
  Xor128.wf st1 -> Xor128.wf st2 ->
  snd (Xor128.randXor128 st1) = snd (Xor128.randXor128 st2) ->
  st1 = st2.
Proof.
  intros (Hx1 & Hy1 & Hz1 & Hw1) (Hx2 & Hy2 & Hz2 & Hw2) H.
  destruct st1 as [x1 y1 z1 w1], st2 as [x2 y2 z2 w2].
  unfold Xor128.randXor128 in H.
  cbn [snd Xor128.x Xor128.y Xor128.z Xor128.w] in *.
  injection H as Hy Hz Hw Hnew. subst y2 z2 w2.
  apply lxor_cancel_l in Hnew.
  apply xor_shiftr8_injective in Hnew;
    try (apply is_u32_lxor; [ assumption | apply u32_range ]).
  apply xor_shiftl11_injective in Hnew; try assumption.
  subst x2. reflexivity.
Qed.

(** X3. The state transition of [randXor128] is injective on 32-bit
    states: two different states never step to the same state. *)
Theorem randXor128_step_injective (st1 st2 : Xor128.state) :
  Xor128.wf st1 -> Xor128.wf st2 ->
  st1 <> st2 ->
  snd (Xor128.randXor128 st1) <> snd (Xor128.randXor128 st2).
Proof.
  intros H1 H2 Hne Heq. apply Hne.
  apply randXor128_state_injective; assumption.
Qed.

Lemma randXor128_step_injective_witness :
  snd (Xor128.randXor128 Xor128.initial)
  <> snd (Xor128.randXor128 (Xor128.srandXor128 7 Xor128.initial)).
Proof.
  apply (randXor128_step_injective Xor128.initial
           (Xor128.srandXor128 7 Xor128.initial)).
  - unfold Xor128.wf, is_u32. simpl. lia.
  - unfold Xor128.wf, is_u32. simpl. lia.
  - discriminate.
Defined.

(** ** Runs of the generator *)

Lemma xor128_advance_wf (n : nat) :
  forall st, Xor128.wf st -> Xor128.wf (xor128_advance n st).
Proof.
  induction n as [ | n IH]; intros st Hwf; simpl.
  - exact Hwf.
  - apply IH. apply randXor128_wf. exact Hwf.
Qed.

(** X1. On a state of 32-bit words every value [randXor128] returns lies
    between 0 and [UINT_MAX], however many are drawn, and the state words
    stay within 32 bits. *)
Theorem randXor128_values_in_range (n : nat) (st : Xor128.state) :
  Xor128.wf st ->
  Forall is_u32 (Xor128.sequence n st) /\ Xor128.wf (xor128_advance n st).
Proof.
  intros Hwf. split; [ | apply xor128_advance_wf; exact Hwf ].
  revert st Hwf. induction n as [ | n IH]; intros st Hwf.
  - constructor.
  - cbn [Xor128.sequence].
    pose proof (randXor128_wf st Hwf) as [Hv Hst].
    destruct (Xor128.randXor128 st) as [v st']. cbn [fst snd] in *.
    constructor; [ exact Hv | apply IH; exact Hst ].
Qed.

Lemma randXor128_values_in_range_witness :
  Forall is_u32 (Xor128.sequence 5 Xor128.initial)
  /\ Xor128.wf (xor128_advance 5 Xor128.initial).
Proof.
  apply (randXor128_values_in_range 5 Xor128.initial).
  unfold Xor128.wf, is_u32. simpl. lia.
Defined.

Lemma xor128_zero_fixed : Xor128.randXor128 xor128_zero = (0, xor128_zero).
Proof. reflexivity. Qed.

(** X4. The all-zero state is the only dead state: a generator in it
    returns 0 forever, and a generator in any other 32-bit state never
    reaches it by drawing. *)
Theorem xor128_zero_state (st : Xor128.state) (n : nat) :
  Xor128.wf st ->
  (st = xor128_zero -> Xor128.sequence n st = repeat 0 n) /\
  (st <> xor128_zero -> xor128_advance n st <> xor128_zero).
Proof.
  intros Hwf. split.
  - intros ->. induction n as [ | n IH].
    + reflexivity.
    + cbn [Xor128.sequence repeat]. rewrite xor128_zero_fixed, IH.
      reflexivity.
  - revert st Hwf. induction n as [ | n IH]; intros st Hwf Hne.
    + exact Hne.
    + cbn [xor128_advance]. apply IH.
      * apply randXor128_wf. exact Hwf.
      * intros Hz. apply Hne.
        apply randXor128_state_injective.
        -- exact Hwf.
        -- unfold Xor128.wf, xor128_zero, is_u32. simpl. lia.
        -- rewrite Hz, xor128_zero_fixed. reflexivity.
Qed.

Lemma xor128_zero_state_witness :
  (Xor128.initial = xor128_zero ->
   Xor128.sequence 3 Xor128.initial = repeat 0 3%nat) /\
  (Xor128.initial <> xor128_zero ->
   xor128_advance 3 Xor128.initial <> xor128_zero).
Proof.
  apply (xor128_zero_state Xor128.initial 3).
  unfold Xor128.wf, is_u32. simpl. lia.
Defined.

Lemma xor128_sequence_app (n m : nat) :
  forall st,
    Xor128.sequence (n + m) st
    = Xor128.sequence n st ++ Xor128.sequence m (xor128_advance n st).
Proof.
  induction n as [ | n IH]; intros st.
  - reflexivity.
  - cbn [Nat.add Xor128.sequence xor128_advance].
    destruct (Xor128.randXor128 st) as [v st'] eqn:E. cbn [snd].
    rewrite IH. reflexivity.
Qed.

Lemma randXor128_shape (st : Xor128.state) :
  exists v,
    Xor128.randXor128 st
    = (v, Xor128.mkState (Xor128.y st) (Xor128.z st) (Xor128.w st) v).
Proof. eexists. reflexivity. Qed.

Lemma xor128_state_of_outputs (st : Xor128.state) (a b c d : Z) :
  Xor128.sequence 4 st = [a; b; c; d] ->
  xor128_advance 4 st = Xor128.mkState a b c d.
Proof.
  cbn [Xor128.sequence xor128_advance].
  destruct (randXor128_shape st) as [v1 E1]. rewrite E1. cbn [snd].
  destruct (randXor128_shape
              (Xor128.mkState (Xor128.y st) (Xor128.z st) (Xor128.w st) v1))
    as [v2 E2].
  cbn [Xor128.x Xor128.y Xor128.z Xor128.w] in E2. rewrite E2. cbn [snd].
  destruct (randXor128_shape
              (Xor128.mkState (Xor128.z st) (Xor128.w st) v1 v2))
    as [v3 E3].
  cbn [Xor128.x Xor128.y Xor128.z Xor128.w] in E3. rewrite E3. cbn [snd].
  destruct (randXor128_shape (Xor128.mkState (Xor128.w st) v1 v2 v3))
    as [v4 E4].
  cbn [Xor128.x Xor128.y Xor128.z Xor128.w] in E4. rewrite E4. cbn [snd].
  intros H. injection H as -> -> -> ->. reflexivity.
Qed.

(** X5. Four consecutive values returned by [randXor128] are the whole
    state: every later value is the one a generator whose words are those
    four values, in order, would return. *)
Theorem xor128_four_outputs_determine
    (st : Xor128.state) (a b c d : Z) (n : nat) :
  Xor128.sequence 4 st = [a; b; c; d] ->
  Xor128.sequence (4 + n) st
  = [a; b; c; d] ++ Xor128.sequence n (Xor128.mkState a b c d).
Proof.
  intros H. rewrite xor128_sequence_app, H.
  rewrite (xor128_state_of_outputs st a b c d H). reflexivity.
Qed.

Lemma xor128_four_outputs_determine_witness :
  Xor128.sequence (4 + 3) Xor128.initial
  = [3656013425; 504890836; 3611983174; 3611979686]
    ++ Xor128.sequence 3
         (Xor128.mkState 3656013425 504890836 3611983174 3611979686).
Proof.
  apply (xor128_four_outputs_determine Xor128.initial
           3656013425 504890836 3611983174 3611979686 3).
  reflexivity.
Defined.

(** ** More on the compression loop *)

Lemma nth_error_map_seq {A : Type} (f : nat -> A) (m i : nat) (c : A) :
  nth_error (map f (seq 0 m)) i = Some c -> (i < m)%nat /\ c = f i.
Proof.
  intros H.
  assert (Hi : (i < m)%nat).
  { assert (Hlt : (i < length (map f (seq 0 m)))%nat)
      by (apply nth_error_Some; rewrite H; discriminate).
    rewrite length_map, length_seq in Hlt. exact Hlt. }
  split; [ exact Hi | ].
  rewrite nth_error_map in H.
  rewrite (nth_error_nth' (seq 0 m) 0%nat) in H
    by (rewrite length_seq; exact Hi).
  rewrite seq_nth in H by exact Hi. cbn in H. injection H as <-. reflexivity.
Qed.

Section CompressMore.

Variable LZ4_compressBound : Z -> Z.
Variable LZ4_compress_fast : list byte -> Z -> Z -> Z -> Z * list byte.

Local Abbreviation compress_loop :=
  (compress_loop LZ4_compressBound LZ4_compress_fast).
Local Abbreviation lz4Compress :=
  (lz4Compress LZ4_compressBound LZ4_compress_fast).
Local Abbreviation lz4Compress_ba :=
  (lz4Compress_ba LZ4_compressBound LZ4_compress_fast).
Local Abbreviation failed := (call_failed LZ4_compress_fast).
Local Abbreviation frame := (frame LZ4_compress_fast).
Local Abbreviation spec_block := (spec_block LZ4_compressBound).

(** X6. Every invocation of the block compressor made by [lz4Compress]
    is on block [i] of the input: it starts at offset [i * 1048576], its
    length is between 1 and 1048576, its capacity is
    [LZ4_compressBound] of that length, and the level is the caller's. *)
Theorem lz4Compress_invocations (data : list byte) (nbytes level : Z) :
  is_int nbytes ->
  exists (r : list byte) (calls : list call),
    lz4Compress data nbytes level = Some (r, calls) /\
    forall (i : nat) (c : call),
      nth_error calls i = Some c ->
      0 < c_srclen c <= LZ4_BLOCKSIZE /\
      c_srclen c = Z.min (nbytes - LZ4_BLOCKSIZE * Z.of_nat i) LZ4_BLOCKSIZE /\
      c_src c = region data (LZ4_BLOCKSIZE * Z.of_nat i) (c_srclen c) /\
      c_cap c = LZ4_compressBound (c_srclen c) /\
      c_level c = level.
Proof.
  intros Hint.
  destruct (lz4Compress_spec LZ4_compressBound LZ4_compress_fast
              data nbytes level Hint) as (r & m & Hrun & Hle & _).
  cbn zeta in Hrun.
  exists r, (map (spec_block data nbytes level) (seq 0 m)).
  split; [ exact Hrun | ]. intros i c Hnth.
  apply nth_error_map_seq in Hnth. destruct Hnth as [Hi ->].
  unfold spec_block. cbn [c_src c_srclen c_cap c_level].
  assert (Hcount : (i < spec_block_count nbytes)%nat) by lia.
  assert (Hpos : 0 < nbytes).
  { destruct (Z.le_gt_cases nbytes 0) as [H | H]; [ | exact H ].
    pose proof (block_index_reaches_count nbytes 0
                  ltac:(change LZ4_BLOCKSIZE with 1048576; lia)).
    unfold spec_block_count in Hcount. lia. }
  pose proof (spec_block_count_bounds nbytes Hpos) as [Hlo _].
  change LZ4_BLOCKSIZE with 1048576 in *.
  repeat split; lia.
Qed.

Lemma frames_nonempty (c : call) (cs : list call) :
  ~ failed c -> concat (map frame (c :: cs)) <> [].
Proof.
  intros Hnf H. apply (f_equal (@length byte)) in H.
  cbn [map concat] in H. rewrite length_app, frame_eq, length_app in H.
  rewrite length_put_int32 in H. simpl in H. lia.
Qed.

(** X8. For a positive length, [lz4Compress] returns the empty stream
    exactly when [LZ4_compressBound] refuses the length or a block
    compression failed: an empty result for a non-empty input always
    means an error. *)
Theorem lz4Compress_empty_iff (data : list byte) (nbytes level : Z) :
  is_int nbytes ->
  0 < nbytes ->
  exists (r : list byte) (calls : list call),
    lz4Compress data nbytes level = Some (r, calls) /\
    (r = [] <-> LZ4_compressBound nbytes < 1 \/ Exists failed calls).
Proof.
  intros Hint Hpos.
  destruct (lz4Compress_spec LZ4_compressBound LZ4_compress_fast
              data nbytes level Hint) as (r & m & Hrun & _ & Hres).
  cbn zeta in Hrun, Hres.
  exists r, (map (spec_block data nbytes level) (seq 0 m)).
  split; [ exact Hrun | ].
  destruct Hres as [(Hb & _ & Hr) | [(_ & Hex & Hr) | (Hb & Hall & Hr & Hm)]].
  - split; auto.
  - split; auto.
  - split.
    + intros Hempty. exfalso. subst m.
      pose proof (block_index_below_count nbytes 0
                    ltac:(change LZ4_BLOCKSIZE with 1048576; lia)) as Hc.
      fold (spec_block_count nbytes) in Hc.
      destruct (spec_block_count nbytes) as [ | k]; [ lia | ].
      cbn [seq map] in Hr, Hall.
      apply Forall_inv in Hall.
      rewrite Hempty in Hr. symmetry in Hr.
      exact (frames_nonempty _ _ Hall Hr).
    + intros [Hlt | Hex]; [ lia | ].
      apply Forall_Exists_neg in Hall. contradiction.
Qed.

Lemma frames_length (cs : list call) :
  Forall (fun c => ~ failed c) cs ->
  Z.of_nat (length (concat (map frame cs)))
  = fold_right Z.add 0
      (map (fun c => 4 + fst (run_call LZ4_compress_fast c)) cs).
Proof.
  induction 1 as [ | c cs Hc _ IH].
  - reflexivity.
  - cbn [map concat fold_right]. rewrite length_app, Nat2Z.inj_add, IH.
    rewrite frame_eq, length_app, length_put_int32, length_resize.
    unfold call_failed in Hc. lia.
Qed.

(** X9. When no block compression fails, the length of the stream is the
    sum over the blocks of 4 plus the compressed length of the block: the
    framing costs exactly four bytes per block. *)
Theorem lz4Compress_stream_length (data : list byte) (nbytes level : Z) :
  is_int nbytes ->
  exists (r : list byte) (calls : list call),
    lz4Compress data nbytes level = Some (r, calls) /\
    (Forall (fun c => ~ failed c) calls ->
     Z.of_nat (length r)
     = fold_right Z.add 0
         (map (fun c => 4 + fst (run_call LZ4_compress_fast c)) calls)).
Proof.
  intros Hint.
  destruct (lz4Compress_spec LZ4_compressBound LZ4_compress_fast
              data nbytes level Hint) as (r & m & Hrun & _ & Hres).
  cbn zeta in Hrun, Hres.
  exists r, (map (spec_block data nbytes level) (seq 0 m)).
  split; [ exact Hrun | ]. intros Hok.
  destruct Hres as [(_ & Hm & Hr) | [(_ & Hex & _) | (_ & _ & Hr & _)]].
  - subst m r. reflexivity.
  - apply Forall_Exists_neg in Hok. contradiction.
  - rewrite Hr. apply frames_length. exact Hok.
Qed.

(** One turn of the loop on block [j]. *)
Lemma compress_loop_step (data : list byte) (nbytes level : Z)
    (fuel j : nat) (ret : list byte) (calls : list call) :
  is_int nbytes ->
  LZ4_BLOCKSIZE * Z.of_nat j < nbytes ->
  let c := spec_block data nbytes level j in
  compress_loop (S fuel) data nbytes level (LZ4_BLOCKSIZE * Z.of_nat j)
                ret calls
  = if 0 <? fst (run_call LZ4_compress_fast c)
    then compress_loop fuel data nbytes level
           (Z.min nbytes (LZ4_BLOCKSIZE * Z.of_nat (S j)))
           (ret ++ frame c) (calls ++ [c])
    else Some ([], calls ++ [c]).
Proof.
  intros Hint Hlt c.
  set (readlen := LZ4_BLOCKSIZE * Z.of_nat j) in *.
  assert (Hpos : 0 <= readlen)
    by (unfold readlen; change LZ4_BLOCKSIZE with 1048576; lia).
  set (datalen := Z.min (nbytes - readlen) LZ4_BLOCKSIZE).
  assert (Hdl : 0 < datalen <= LZ4_BLOCKSIZE)
    by (unfold datalen; change LZ4_BLOCKSIZE with 1048576; lia).
  assert (Hti : to_int (nbytes - readlen) = nbytes - readlen)
    by (apply to_int_small; unfold is_int, INT_MIN, INT_MAX in *; lia).
  assert (Hnext : to_int (readlen + datalen)
                  = Z.min nbytes (LZ4_BLOCKSIZE * Z.of_nat (S j))).
  { rewrite to_int_small.
    - unfold datalen, readlen. change LZ4_BLOCKSIZE with 1048576. lia.
    - unfold is_int, INT_MIN, INT_MAX in *. lia. }
  assert (Hc : c = mkCall (region (skipn (Z.to_nat readlen) data) 0 datalen)
                          datalen (LZ4_compressBound datalen) level).
  { unfold c, spec_block. cbn zeta. fold readlen. fold datalen.
    rewrite region_from_start by exact Hpos. reflexivity. }
  cbn [compress_loop].
  apply Z.ltb_lt in Hlt. rewrite Hlt, Hti. fold datalen.
  rewrite (compress_block _ _ _ datalen level (proj1 Hdl)). cbn zeta.
  rewrite <- Hc, Hnext.
  destruct (Z.ltb_spec 0 (fst (run_call LZ4_compress_fast c))) as [Hrv | Hrv].
  - rewrite resize_nonempty by exact Hrv.
    rewrite length_resize, Z2Nat.id by lia.
    rewrite put_int32_to_int, frame_eq. reflexivity.
  - reflexivity.
Qed.

(** The invocations of a run: successful ones, then at most one failed
    one, which ends the run with an empty result. *)
Lemma compress_loop_stops (data : list byte) (nbytes level : Z) :
  is_int nbytes ->
  forall (fuel j : nat) (ret : list byte) (calls : list call),
    let readlen := Z.min nbytes (LZ4_BLOCKSIZE * Z.of_nat j) in
    (Z.to_nat (nbytes - readlen) <= fuel)%nat ->
    exists (r : list byte) (good bad : list call),
      compress_loop fuel data nbytes level readlen ret calls
        = Some (r, calls ++ good ++ bad) /\
      Forall (fun c => ~ failed c) good /\
      (bad = [] \/ exists c, bad = [c] /\ failed c /\ r = []).
Proof.
  intros Hint. induction fuel as [ | fuel IH];
    intros j ret calls readlen Hfuel.
  - exists ret, [], []. rewrite !app_nil_r. split; [ | auto ].
    apply compress_loop_exit. lia.
  - destruct (Z.ltb_spec readlen nbytes) as [Hlt | Hge].
    + assert (Hrl : readlen = LZ4_BLOCKSIZE * Z.of_nat j) by lia.
      rewrite Hrl.
      rewrite compress_loop_step by (assumption || lia).
      set (c := spec_block data nbytes level j).
      destruct (Z.ltb_spec 0 (fst (run_call LZ4_compress_fast c)))
        as [Hrv | Hrv].
      * destruct (IH (S j) (ret ++ frame c) (calls ++ [c]))
          as (r & good & bad & Hrun & Hgood & Hbad).
        { cbn zeta. change LZ4_BLOCKSIZE with 1048576 in *. lia. }
        exists r, (c :: good), bad. split; [ | split ].
        -- rewrite Hrun, <- app_assoc. reflexivity.
        -- constructor; [ unfold call_failed; lia | exact Hgood ].
        -- exact Hbad.
      * exists [], [], [c]. split; [ reflexivity | ].
        split; [ constructor | ]. right. exists c.
        unfold call_failed. auto.
    + exists ret, [], []. rewrite !app_nil_r. split; [ | auto ].
      apply compress_loop_exit. lia.
Qed.

(** X7. The block compressor is never invoked again after a failure:
    the invocations of [lz4Compress] are successful ones followed by at
    most one failed one, and a failed one makes the result empty. *)
Theorem lz4Compress_stops_at_failure (data : list byte) (nbytes level : Z) :
  is_int nbytes ->
  exists (r : list byte) (good bad : list call),
    lz4Compress data nbytes level = Some (r, good ++ bad) /\
    Forall (fun c => ~ failed c) good /\
    (bad = [] \/ exists c, bad = [c] /\ failed c /\ r = []).
Proof.
  intros Hint. unfold lz4Compress.
  destruct (LZ4_compressBound nbytes <? 1).
  - exists [], [], []. split; [ reflexivity | auto ].
  - destruct (Z.le_gt_cases nbytes 0) as [Hn | Hn].
    + exists [], [], []. split; [ | auto ].
      apply compress_loop_exit. exact Hn.
    + destruct (compress_loop_stops data nbytes level Hint
                  (Z.to_nat nbytes) 0 [] [])
        as (r & good & bad & Hrun & Hres).
      * cbn zeta. change LZ4_BLOCKSIZE with 1048576. lia.
      * cbn zeta in Hrun.
        replace (Z.min nbytes (LZ4_BLOCKSIZE * Z.of_nat 0)) with 0 in Hrun
          by (change LZ4_BLOCKSIZE with 1048576; lia).
        exists r, good, bad. split; [ exact Hrun | exact Hres ].
Qed.

End CompressMore.

(** ** More on the decompression loop *)

Section UncompressMore.

Variable LZ4_compressBound : Z -> Z.
Variable LZ4_decompress_safe : list byte -> Z -> Z -> Z * list byte.

Local Abbreviation uncompress_loop :=
  (uncompress_loop LZ4_compressBound LZ4_decompress_safe).
Local Abbreviation lz4Uncompress :=
  (lz4Uncompress LZ4_compressBound LZ4_decompress_safe).
Local Abbreviation bad := (bad_prefix LZ4_compressBound).
Local Abbreviation CompressBoundSize :=
  (CompressBoundSize LZ4_compressBound).
Local Abbreviation decompress_record :=
  (decompress_record LZ4_decompress_safe).
Local Abbreviation record_output := (record_output LZ4_decompress_safe).

(** X11. Called with [nbytes <= 0], [lz4Uncompress] returns the empty
    sequence without reading a prefix or invoking the decompressor. *)
Theorem lz4Uncompress_nonpositive_length (mem : list byte) (nbytes : Z) :
  nbytes <= 0 ->
  lz4Uncompress mem nbytes = Some ([], []).
Proof.
  intros Hn. unfold lz4Uncompress. apply uncompress_loop_exit. exact Hn.
Qed.

Local Abbreviation record_decoded :=
  (record_decoded LZ4_compressBound LZ4_decompress_safe).

(** The result of a run is empty, or every record read was decoded and
    the result is what was there followed by their outputs. *)
Lemma uncompress_loop_outputs (mem dev : list byte) (nbytes : Z) :
  forall (fuel pos : nat) (readlen : Z) (ret : list byte)
         (log : list prefix),
    (pos <= length dev)%nat ->
    (length dev - pos < fuel)%nat ->
    exists (r : list byte) (seen : list prefix),
      uncompress_loop fuel mem dev nbytes pos readlen ret log
        = Some (r, log ++ seen) /\
      (r = [] \/
       (r = ret ++ concat (map (record_output mem) seen)
        /\ Forall (record_decoded mem) seen)).
Proof.
  induction fuel as [ | fuel IH]; intros pos readlen ret log Hpos Hfuel.
  - lia.
  - cbn [uncompress_loop].
    destruct (Z.ltb_spec readlen nbytes) as [Hlt | Hge].
    2:{ exists ret, []. rewrite !app_nil_r. split; [ reflexivity | ].
        right. split; [ reflexivity | constructor ]. }
    destruct (read_int32 dev pos) as [srclen pos1] eqn:Er.
    set (p := mkPrefix (to_int (readlen + 4)) srclen).
    destruct ((srclen <=? 0) || (CompressBoundSize <? srclen)) eqn:Ebad.
    { exists [], [p]. split; [ reflexivity | left; reflexivity ]. }
    apply orb_false_iff in Ebad. destruct Ebad as [E1 E2].
    apply Z.leb_gt in E1. apply Z.ltb_ge in E2.
    destruct (read_int32_nonzero dev pos srclen pos1 Er ltac:(lia))
      as [Hp1 Hlen].
    change (LZ4_decompress_safe (region mem (to_int (readlen + 4)) srclen)
                                srclen LZ4_BLOCKSIZE)
      with (decompress_record mem p).
    assert (Hout : resize (fst (decompress_record mem p))
                          (snd (decompress_record mem p))
                   = record_output mem p) by reflexivity.
    assert (Hdec : 0 < fst (decompress_record mem p)
                   -> record_decoded mem p).
    { intros H. split; [ | exact H ].
      unfold bad_prefix. cbn [p_srclen p]. lia. }
    destruct (decompress_record mem p) as [rv dst].
    cbn [fst snd] in Hout, Hdec.
    destruct (Z.ltb_spec 0 rv) as [Hrv | Hrv].
    2:{ exists [], [p]. split; [ reflexivity | left; reflexivity ]. }
    destruct (IH (skipRawData dev pos1 srclen)
                 (to_int (to_int (readlen + 4) + srclen))
                 (ret ++ resize rv dst) (log ++ [p]))
      as (r & seen & Hrun & Hres).
    + unfold skipRawData. lia.
    + unfold skipRawData. lia.
    + exists r, (p :: seen). split.
      * rewrite Hrun, <- app_assoc. reflexivity.
      * destruct Hres as [Hr | (Hr & Hall)]; [ left; exact Hr | ].
        right. split.
        -- rewrite Hr. cbn [map concat]. rewrite <- Hout, <- app_assoc.
           reflexivity.
        -- constructor; [ apply Hdec; exact Hrv | exact Hall ].
Qed.

(** X15. [lz4Uncompress] returns all or nothing: its result is empty, or
    it is the concatenation, in order, of the outputs of every record it
    read, each of which passed the length validation and was decompressed
    with a positive result. *)
Theorem lz4Uncompress_all_or_nothing (mem : list byte) (nbytes : Z) :
  exists (r : list byte) (log : list prefix),
    lz4Uncompress mem nbytes = Some (r, log) /\
    (r = [] \/
     (r = concat (map (record_output mem) log)
      /\ Forall (record_decoded mem) log)).
Proof.
  unfold lz4Uncompress.
  destruct (uncompress_loop_outputs mem (firstn (Z.to_nat nbytes) mem) nbytes
              (S (Z.to_nat nbytes)) 0 0 [] [])
    as (r & seen & Hrun & Hres).
  - lia.
  - rewrite length_firstn. lia.
  - exists r, seen. split; [ exact Hrun | exact Hres ].
Qed.

(** X12. A decompression failure aborts the whole operation: if the
    decompressor returns a non-positive code on any record that was read,
    everything decoded before is dropped and the result is the empty
    sequence. *)
Theorem lz4Uncompress_decompress_failure_empty
    (mem : list byte) (nbytes : Z) :
  exists (r : list byte) (log : list prefix),
    lz4Uncompress mem nbytes = Some (r, log) /\
    (Exists (fun p => fst (decompress_record mem p) <= 0) log -> r = []).
Proof.
  unfold lz4Uncompress.
  destruct (uncompress_loop_outputs mem (firstn (Z.to_nat nbytes) mem) nbytes
              (S (Z.to_nat nbytes)) 0 0 [] [])
    as (r & log & Hrun & Hres); [ lia | rewrite length_firstn; lia | ].
  exists r, log. split; [ exact Hrun | ]. intros Hex.
  destruct Hres as [Hr | (_ & Hall)]; [ exact Hr | ].
  exfalso. apply Exists_exists in Hex. destruct Hex as (p & Hin & Hp).
  rewrite Forall_forall in Hall. destruct (Hall p Hin) as [_ Hpos]. lia.
Qed.

(** A run that ends with a result other than empty read at most one
    record per five bytes left of the device (four when only four are
    left). *)
Lemma uncompress_loop_count (mem dev : list byte) (nbytes : Z) :
  forall (fuel pos : nat) (readlen : Z) (ret : list byte)
         (log : list prefix),
    (pos <= length dev)%nat ->
    (length dev - pos < fuel)%nat ->
    exists (r : list byte) (seen : list prefix),
      uncompress_loop fuel mem dev nbytes pos readlen ret log
        = Some (r, log ++ seen) /\
      (r = [] \/ (5 * length seen <= length dev - pos + 1)%nat).
Proof.
  induction fuel as [ | fuel IH]; intros pos readlen ret log Hpos Hfuel.
  - lia.
  - cbn [uncompress_loop].
    destruct (Z.ltb_spec readlen nbytes) as [Hlt | Hge].
    2:{ exists ret, []. rewrite !app_nil_r. split; [ reflexivity | ].
        right. simpl. lia. }
    destruct (read_int32 dev pos) as [srclen pos1] eqn:Er.
    set (p := mkPrefix (to_int (readlen + 4)) srclen).
    destruct ((srclen <=? 0) || (CompressBoundSize <? srclen)) eqn:Ebad.
    { exists [], [p]. split; [ reflexivity | left; reflexivity ]. }
    apply orb_false_iff in Ebad. destruct Ebad as [E1 E2].
    apply Z.leb_gt in E1. apply Z.ltb_ge in E2.
    destruct (read_int32_nonzero dev pos srclen pos1 Er ltac:(lia))
      as [Hp1 Hlen].
    destruct (LZ4_decompress_safe _ _ _) as [rv dst].
    destruct (0 <? rv).
    2:{ exists [], [p]. split; [ reflexivity | left; reflexivity ]. }
    destruct (IH (skipRawData dev pos1 srclen)
                 (to_int (to_int (readlen + 4) + srclen))
                 (ret ++ resize rv dst) (log ++ [p]))
      as (r & seen & Hrun & Hres).
    + unfold skipRawData. lia.
    + unfold skipRawData. lia.
    + exists r, (p :: seen). split.
      * rewrite Hrun, <- app_assoc. reflexivity.
      * destruct Hres as [Hr | Hcount]; [ left; exact Hr | ].
        right. cbn [length]. unfold skipRawData in Hcount.
        assert (Hs : (1 <= Z.to_nat srclen)%nat) by lia.
        destruct (Nat.min_spec (pos1 + Z.to_nat srclen) (length dev))
          as [[Hcmp Hmin] | [Hcmp Hmin]]; rewrite Hmin in Hcount; lia.
Qed.

(** X14. The output of [lz4Uncompress] is bounded by its input: when the
    decompressor never reports more than the capacity it was given, a
    result holds at most 1048576 bytes per record read, and a result
    other than empty comes from at most one record per five input
    bytes. *)
Theorem lz4Uncompress_output_bound (mem : list byte) (nbytes : Z) :
  (forall src n, fst (LZ4_decompress_safe src n LZ4_BLOCKSIZE)
                 <= LZ4_BLOCKSIZE) ->
  exists (r : list byte) (log : list prefix),
    lz4Uncompress mem nbytes = Some (r, log) /\
    Z.of_nat (length r) <= LZ4_BLOCKSIZE * Z.of_nat (length log) /\
    (r <> [] -> 5 * Z.of_nat (length log) <= nbytes + 1).
Proof.
  intros Hcap. unfold lz4Uncompress.
  destruct (uncompress_loop_outputs mem (firstn (Z.to_nat nbytes) mem) nbytes
              (S (Z.to_nat nbytes)) 0 0 [] [])
    as (r & log & Hrun & Hres); [ lia | rewrite length_firstn; lia | ].
  destruct (uncompress_loop_count mem (firstn (Z.to_nat nbytes) mem) nbytes
              (S (Z.to_nat nbytes)) 0 0 [] [])
    as (r' & log' & Hrun' & Hcount); [ lia | rewrite length_firstn; lia | ].
  rewrite Hrun in Hrun'. injection Hrun' as <- <-.
  exists r, log. split; [ exact Hrun | ]. cbn [app] in *. split.
  - destruct Hres as [-> | (-> & _)].
    + cbn [length]. change LZ4_BLOCKSIZE with 1048576. lia.
    + clear Hrun Hcount. induction log as [ | p log IH].
      * cbn [map concat length]. change LZ4_BLOCKSIZE with 1048576. lia.
      * cbn [map concat length]. rewrite length_app.
        unfold record_output at 1. rewrite length_resize.
        specialize (Hcap (region mem (p_offset p) (p_srclen p)) (p_srclen p)).
        fold (decompress_record mem p) in Hcap.
        change LZ4_BLOCKSIZE with 1048576 in *. lia.
  - intros Hne. destruct Hcount as [Hr | Hcount]; [ contradiction | ].
    rewrite length_firstn in Hcount.
    destruct (Z.le_gt_cases nbytes 0) as [Hn | Hn].
    + exfalso. apply Hne.
      rewrite (uncompress_loop_exit LZ4_compressBound LZ4_decompress_safe)
        in Hrun by exact Hn.
      injection Hrun as <- _. reflexivity.
    + lia.
Qed.

End UncompressMore.

(** ** Streams of well-formed records *)

Section RoundTripMore.

Variable LZ4_compressBound : Z -> Z.
Variable LZ4_compress_fast : list byte -> Z -> Z -> Z -> Z * list byte.
Variable LZ4_decompress_safe : list byte -> Z -> Z -> Z * list byte.

Local Abbreviation uncompress_loop :=
  (uncompress_loop LZ4_compressBound LZ4_decompress_safe).
Local Abbreviation lz4Uncompress_ba :=
  (lz4Uncompress_ba LZ4_compressBound LZ4_decompress_safe).
Local Abbreviation lz4Compress_ba :=
  (lz4Compress_ba LZ4_compressBound LZ4_compress_fast).
Local Abbreviation frame := (frame LZ4_compress_fast).
Local Abbreviation block_ok :=
  (block_ok LZ4_compressBound LZ4_compress_fast LZ4_decompress_safe).
Local Abbreviation spec_blocks := (spec_blocks LZ4_compressBound).

(** One turn of the loop on a well-formed record that lies within the
    stream, whatever follows it. *)
Lemma uncompress_frame_step (c : call) (pre suffix tail : list byte)
    (fuel : nat) (ret : list byte) (log : list prefix) :
  let stream := pre ++ frame c ++ suffix in
  block_ok c ->
  0 < c_srclen c ->
  Z.of_nat (length stream) <= INT_MAX ->
  uncompress_loop (S fuel) (stream ++ tail) stream
                  (Z.of_nat (length stream))
                  (length pre) (Z.of_nat (length pre)) ret log
  = uncompress_loop fuel (stream ++ tail) stream
                    (Z.of_nat (length stream))
                    (length (pre ++ frame c))
                    (Z.of_nat (length (pre ++ frame c)))
                    (ret ++ c_src c)
                    (log ++ [mkPrefix (Z.of_nat (length pre) + 4)
                                      (fst (run_call LZ4_compress_fast c))]).
Proof.
  intros stream (Hnf & Hbnd & Hrt) Hsl Hmax.
  pose proof (length_frame LZ4_compress_fast c Hnf) as Hfl.
  pose proof (frame_eq LZ4_compress_fast c) as Hfr.
  unfold call_failed, within_block_bound, block_round_trip in *.
  unfold run_call in *.
  destruct (LZ4_compress_fast (c_src c) (c_srclen c) (c_cap c) (c_level c))
    as [rv dst] eqn:Erun.
  cbn [fst snd] in *.
  assert (Hstream : stream = pre ++ put_int32 rv ++ resize rv dst ++ suffix).
  { unfold stream. rewrite Hfr, <- app_assoc. reflexivity. }
  assert (Hsl' : Z.of_nat (length stream)
                 = Z.of_nat (length pre) + 4 + rv
                   + Z.of_nat (length suffix)).
  { rewrite Hstream, !length_app, length_put_int32, length_resize. lia. }
  assert (Hrvint : is_int rv) by (unfold is_int, INT_MIN, INT_MAX in *; lia).
  cbn [uncompress_loop].
  destruct (Z.ltb_spec (Z.of_nat (length pre)) (Z.of_nat (length stream)))
    as [_ | Hge]; [ | lia ].
  clearbody stream.
  replace (read_int32 stream (length pre)) with (rv, (length pre + 4)%nat)
    by (rewrite Hstream; symmetry; apply read_int32_put; exact Hrvint).
  rewrite (to_int_small (Z.of_nat (length pre) + 4))
    by (unfold is_int, INT_MIN, INT_MAX in *; lia).
  rewrite (to_int_small (Z.of_nat (length pre) + 4 + rv))
    by (unfold is_int, INT_MIN, INT_MAX in *; lia).
  destruct (Z.leb_spec rv 0) as [Hbad | _]; [ lia | ].
  destruct (Z.ltb_spec (CompressBoundSize LZ4_compressBound) rv)
    as [Hbad | _]; [ lia | ].
  cbn [orb].
  assert (Hregion : region (stream ++ tail) (Z.of_nat (length pre) + 4) rv
                    = resize rv dst).
  { unfold region.
    destruct (Z.ltb_spec (Z.of_nat (length pre) + 4) 0); [ lia | ].
    replace (Z.to_nat (Z.of_nat (length pre) + 4))
      with (length (pre ++ put_int32 rv))
      by (rewrite length_app, length_put_int32; lia).
    rewrite Hstream.
    replace ((pre ++ put_int32 rv ++ resize rv dst ++ suffix) ++ tail)
      with ((pre ++ put_int32 rv) ++ resize rv dst ++ suffix ++ tail)
      by (rewrite <- !app_assoc; reflexivity).
    rewrite skipn_length_app.
    rewrite <- (length_resize rv dst) at 1.
    apply firstn_length_app. }
  rewrite Hregion.
  destruct (LZ4_decompress_safe (resize rv dst) rv LZ4_BLOCKSIZE)
    as [n out].
  destruct Hrt as [Hn Hout].
  destruct (Z.ltb_spec 0 n) as [_ | Hbad]; [ | lia ].
  rewrite Hout.
  assert (Hpre' : length (pre ++ frame c)
                  = (length pre + 4 + Z.to_nat rv)%nat).
  { rewrite Hfr, !length_app, length_put_int32, length_resize. lia. }
  replace (skipRawData stream (length pre + 4) rv)
    with (length (pre ++ frame c))
    by (unfold skipRawData; lia).
  replace (Z.of_nat (length pre) + 4 + rv)
    with (Z.of_nat (length (pre ++ frame c))) by lia.
  reflexivity.
Qed.

(** Decoding a run of well-formed records brings the loop to the end of
    the run, with their source bytes appended. *)
Lemma uncompress_frames_then (suffix tail : list byte) :
  forall (cs : list call) (pre : list byte) (fuel : nat)
         (ret : list byte) (log : list prefix),
    let stream := pre ++ concat (map frame cs) ++ suffix in
    Forall block_ok cs ->
    Forall (fun c => 0 < c_srclen c) cs ->
    Z.of_nat (length stream) <= INT_MAX ->
    exists log',
      uncompress_loop (length cs + fuel) (stream ++ tail) stream
                      (Z.of_nat (length stream))
                      (length pre) (Z.of_nat (length pre)) ret log
      = uncompress_loop fuel (stream ++ tail) stream
                        (Z.of_nat (length stream))
                        (length (pre ++ concat (map frame cs)))
                        (Z.of_nat (length (pre ++ concat (map frame cs))))
                        (ret ++ concat (map c_src cs)) log'.
Proof.
  induction cs as [ | c cs IH]; intros pre fuel ret log stream Hok Hlen Hmax.
  - exists log. cbn [map concat length Nat.add]. rewrite !app_nil_r.
    reflexivity.
  - inversion Hok as [ | ? ? Hc Hok']; subst.
    inversion Hlen as [ | ? ? Hsl Hlen']; subst.
    assert (Hstream : stream
                      = pre ++ frame c ++ (concat (map frame cs) ++ suffix)).
    { unfold stream. cbn [map concat]. rewrite <- app_assoc. reflexivity. }
    assert (Hstream' : stream
                       = (pre ++ frame c) ++ concat (map frame cs) ++ suffix).
    { rewrite Hstream, <- app_assoc. reflexivity. }
    clearbody stream.
    cbn [length Nat.add].
    rewrite Hstream.
    rewrite (uncompress_frame_step c pre (concat (map frame cs) ++ suffix)
               tail (length cs + fuel) ret log Hc Hsl)
      by (rewrite <- Hstream; exact Hmax).
    rewrite <- Hstream.
    destruct (IH (pre ++ frame c) fuel (ret ++ c_src c)
                 (log ++ [mkPrefix (Z.of_nat (length pre) + 4)
                            (fst (run_call LZ4_compress_fast c))])
                 Hok' Hlen') as (log' & Hrun).
    { rewrite <- Hstream'. exact Hmax. }
    rewrite <- Hstream' in Hrun. rewrite Hrun.
    exists log'. cbn [map concat]. rewrite <- !app_assoc. reflexivity.
Qed.

Lemma frames_count_le (cs : list call) :
  Forall block_ok cs ->
  (length cs <= length (concat (map frame cs)))%nat.
Proof.
  induction 1 as [ | c cs (Hnf & _) _ IH].
  - simpl. lia.
  - cbn [map concat length]. rewrite length_app.
    pose proof (length_frame LZ4_compress_fast c Hnf) as Hl.
    unfold call_failed in Hnf. lia.
Qed.

(** X13. A stream of well-formed records followed by one to three stray
    bytes is rejected as a whole: the bytes cannot hold a length prefix,
    and everything decoded before them is dropped. *)
Theorem lz4Uncompress_stray_bytes (cs : list call) (junk : list byte) :
  let stream := concat (map frame cs) ++ junk in
  Forall block_ok cs ->
  Forall (fun c => 0 < c_srclen c) cs ->
  (0 < length junk < 4)%nat ->
  Z.of_nat (length stream) <= INT_MAX ->
  exists log, lz4Uncompress_ba stream = Some ([], log).
Proof.
  intros stream Hok Hlen Hjunk Hmax.
  unfold lz4Uncompress_ba, lz4Uncompress.
  rewrite Nat2Z.id, firstn_length_app.
  pose proof (frames_count_le cs Hok) as Hcount.
  assert (Hsl : length stream
                = (length (concat (map frame cs)) + length junk)%nat)
    by (unfold stream; apply length_app).
  replace (S (length stream))
    with (length cs + S (length stream - length cs))%nat by lia.
  destruct (uncompress_frames_then junk [x00] cs [] (S (length stream - length cs))
              [] [] Hok Hlen Hmax) as (log' & Hrun).
  cbn [app length] in Hrun. fold stream in Hrun.
  change (Z.of_nat 0) with 0 in Hrun. rewrite Hrun.
  cbn [uncompress_loop].
  destruct (Z.ltb_spec (Z.of_nat (length (concat (map frame cs))))
                       (Z.of_nat (length stream))) as [_ | Hge]; [ | lia ].
  unfold read_int32, stream. rewrite skipn_length_app.
  destruct junk as [ | j0 [ | j1 [ | j2 [ | j3 rest]]]];
    cbn [length] in Hjunk; try lia; cbn [Z.leb orb Z.compare];
    eexists; reflexivity.
Qed.

(** What a successful [lz4Compress] of a [QByteArray] returns: one frame
    per invocation, the invocations covering the input in order. *)
Lemma lz4Compress_ba_shape (data : list byte) (level : Z) :
  Z.of_nat (length data) <= INT_MAX ->
  (0 < Z.of_nat (length data) ->
   1 <= LZ4_compressBound (Z.of_nat (length data))) ->
  exists (stream : list byte) (calls : list call),
    lz4Compress_ba data level = Some (stream, calls) /\
    (Forall block_ok calls ->
     stream = concat (map frame calls) /\
     Forall (fun c => 0 < c_srclen c) calls /\
     concat (map c_src calls) = data).
Proof.
  intros HNmax Hbound. set (N := Z.of_nat (length data)) in *.
  assert (Hint : is_int N) by (unfold is_int, INT_MIN; lia).
  destruct (lz4Compress_spec LZ4_compressBound LZ4_compress_fast
              data N level Hint) as (r & m & Hrun & _ & Hres).
  cbn zeta in Hrun, Hres.
  exists r, (map (spec_block LZ4_compressBound data N level) (seq 0 m)).
  split; [ exact Hrun | ]. intros Hok.
  destruct Hres as [(Hb & Hm & Hr) | [(_ & Hex & _) | (_ & _ & Hr & Hm)]].
  - assert (Hd : data = [])
      by (destruct data; [ reflexivity | simpl in N; lia ]).
    subst m r. rewrite Hd. repeat split. constructor.
  - exfalso. apply Forall_Exists_neg in Hex; [ exact Hex | ].
    apply Forall_impl with (2 := Hok). intros c (Hnf & _). exact Hnf.
  - subst m. fold (spec_blocks data N level). split; [ exact Hr | ]. split.
    + apply Forall_forall. intros c Hin.
      apply in_map_iff in Hin. destruct Hin as (i & Hc & Hi).
      apply in_seq in Hi. subst c.
      destruct (spec_block_sizes LZ4_compressBound data level i)
        as (_ & Hpos & _); [ fold N; lia | ].
      fold N in Hpos. lia.
    + apply spec_blocks_concat.
Qed.

(** The invocations [lz4Compress] makes never grow: the first takes
    [qMin(nbytes, LZ4_BLOCKSIZE)] bytes and none takes more. *)
Lemma lz4Compress_ba_sizes (data : list byte) (level : Z) :
  Z.of_nat (length data) <= INT_MAX ->
  exists (stream : list byte) (calls : list call),
    lz4Compress_ba data level = Some (stream, calls) /\
    Forall (fun c => c_srclen c
                     <= Z.min (Z.of_nat (length data)) LZ4_BLOCKSIZE) calls /\
    (forall c rest, calls = c :: rest ->
       c_srclen c = Z.min (Z.of_nat (length data)) LZ4_BLOCKSIZE) /\
    (data = [] -> calls = []) /\
    (0 < Z.of_nat (length data) ->
     1 <= LZ4_compressBound (Z.of_nat (length data)) -> calls <> []).
Proof.
  intros HNmax. set (N := Z.of_nat (length data)) in *.
  assert (Hint : is_int N) by (unfold is_int, INT_MIN; lia).
  destruct (lz4Compress_spec LZ4_compressBound LZ4_compress_fast
              data N level Hint) as (r & m & Hrun & Hle & Hres).
  cbn zeta in Hrun, Hres.
  exists r, (map (spec_block LZ4_compressBound data N level) (seq 0 m)).
  split; [ exact Hrun | ]. split; [ | split; [ | split ] ].
  - apply Forall_forall. intros c Hin.
    apply in_map_iff in Hin. destruct Hin as (i & Hc & _). subst c.
    unfold spec_block. cbn [c_srclen].
    change LZ4_BLOCKSIZE with 1048576. lia.
  - intros c rest Hc. destruct m as [ | m']; [ discriminate | ].
    cbn [seq map] in Hc. injection Hc as Hc _. subst c.
    unfold spec_block. cbn [c_srclen].
    change LZ4_BLOCKSIZE with 1048576. lia.
  - intros Hd. assert (HN0 : N = 0) by (unfold N; rewrite Hd; reflexivity).
    rewrite HN0 in Hle. change (spec_block_count 0) with 0%nat in Hle.
    assert (Hm : m = 0%nat) by lia. rewrite Hm. reflexivity.
  - intros HN Hb Hnil. destruct m as [ | m']; [ | discriminate ].
    destruct Hres as [(Hlt & _) | [(_ & Hex & _) | (_ & _ & _ & Hm)]].
    + lia.
    + inversion Hex.
    + pose proof (spec_block_count_bounds N HN) as [_ Hhi].
      rewrite <- Hm in Hhi. change LZ4_BLOCKSIZE with 1048576 in Hhi. lia.
Qed.

(** X10. Compressed streams can be joined when the first input is empty
    or at least one block long: no record of the joined stream then holds
    more than its first record, and, when the blocks of both inputs
    compress successfully, decompressing the stream of the first followed
    by the stream of the second gives the first input followed by the
    second. *)
Theorem lz4_streams_concatenate (a b : list byte) (level : Z) :
  Z.of_nat (length a) <= INT_MAX ->
  Z.of_nat (length b) <= INT_MAX ->
  (0 < Z.of_nat (length a) -> 1 <= LZ4_compressBound (Z.of_nat (length a))) ->
  (0 < Z.of_nat (length b) -> 1 <= LZ4_compressBound (Z.of_nat (length b))) ->
  a = [] \/ LZ4_BLOCKSIZE <= Z.of_nat (length a) ->
  exists (sa sb : list byte) (ca cb : list call),
    lz4Compress_ba a level = Some (sa, ca) /\
    lz4Compress_ba b level = Some (sb, cb) /\
    Forall (fun c => c_srclen c
                     <= c_srclen (hd (mkCall [] 0 0 0) (ca ++ cb)))
           (ca ++ cb) /\
    (Forall block_ok ca -> Forall block_ok cb ->
     Z.of_nat (length (sa ++ sb)) <= INT_MAX ->
     exists log, lz4Uncompress_ba (sa ++ sb) = Some (a ++ b, log)).
Proof.
  intros Ha Hb Hba Hbb Hfirst.
  destruct (lz4Compress_ba_shape a level Ha Hba) as (sa & ca & Hra & Hsa).
  destruct (lz4Compress_ba_shape b level Hb Hbb) as (sb & cb & Hrb & Hsb).
  exists sa, sb, ca, cb. split; [ exact Hra | ]. split; [ exact Hrb | ].
  split.
  - destruct (lz4Compress_ba_sizes a level Ha)
      as (sa' & ca' & Hra' & Hlea & Hhda & Hnila & Hnea).
    destruct (lz4Compress_ba_sizes b level Hb)
      as (sb' & cb' & Hrb' & Hleb & Hhdb & _ & _).
    assert (Ea : Some (sa', ca') = Some (sa, ca))
      by (rewrite <- Hra', <- Hra; reflexivity).
    assert (Eb : Some (sb', cb') = Some (sb, cb))
      by (rewrite <- Hrb', <- Hrb; reflexivity).
    injection Ea as _ Eca. injection Eb as _ Ecb. subst ca' cb'.
    destruct Hfirst as [Hempty | Hfull].
    + rewrite (Hnila Hempty). cbn [app].
      destruct cb as [ | c0 rest]; [ constructor | ].
      cbn [hd]. rewrite (Hhdb c0 rest eq_refl). exact Hleb.
    + assert (Hpos : 0 < Z.of_nat (length a))
        by (change LZ4_BLOCKSIZE with 1048576 in Hfull; lia).
      destruct ca as [ | c0 rest];
        [ exfalso; apply (Hnea Hpos (Hba Hpos)); reflexivity | ].
      cbn [app hd]. rewrite (Hhda c0 rest eq_refl).
      change (c0 :: rest ++ cb) with ((c0 :: rest) ++ cb).
      apply Forall_app. split.
      * exact Hlea.
      * apply Forall_impl with (2 := Hleb). intros c Hc. cbn beta in Hc.
        change LZ4_BLOCKSIZE with 1048576 in *. lia.
  - intros Hoka Hokb Hmax.
    destruct (Hsa Hoka) as (Ea & Hla & Hda).
    destruct (Hsb Hokb) as (Eb & Hlb & Hdb).
    assert (Hjoin : sa ++ sb = concat (map frame (ca ++ cb)))
      by (rewrite map_app, concat_app, Ea, Eb; reflexivity).
    destruct (uncompress_frames LZ4_compressBound LZ4_compress_fast
                LZ4_decompress_safe [x00] (ca ++ cb) []
                (S (length (sa ++ sb))) [] [])
      as (log & Hdec).
    + apply Forall_app. split; assumption.
    + apply Forall_app. split; assumption.
    + cbn [app]. rewrite <- Hjoin. exact Hmax.
    + rewrite <- Hjoin. lia.
    + cbn [app length] in Hdec. rewrite <- Hjoin in Hdec.
      change (Z.of_nat 0) with 0 in Hdec.
      exists log. unfold lz4Uncompress_ba, lz4Uncompress.
      rewrite Nat2Z.id, firstn_length_app, Hdec.
      rewrite map_app, concat_app, Hda, Hdb. reflexivity.
Qed.

End RoundTripMore.

(** ** Seeding and the dead state *)

(** X2. Seeding with a 32-bit value keeps the words within 32 bits, and
    leaves the generator in the all-zero state exactly when the seed is 0
    and the words [x] and [y], which seeding does not touch, are 0. *)
Theorem srandXor128_dead_iff (s : Z) (st : Xor128.state) :
  Xor128.wf st ->
  is_u32 s ->
  Xor128.wf (Xor128.srandXor128 s st) /\
  (Xor128.srandXor128 s st = xor128_zero
   <-> s = 0 /\ Xor128.x st = 0 /\ Xor128.y st = 0).
Proof.
  intros Hwf Hs. split; [ apply srandXor128_wf; assumption | ].
  destruct st as [x0 y0 z0 w0]. unfold Xor128.srandXor128, xor128_zero.
  cbn [Xor128.x Xor128.y]. split.
  - intros H. injection H as Hx Hy _ Hw. auto.
  - intros (-> & -> & ->). reflexivity.
Qed.

Lemma srandXor128_dead_iff_witness :
  Xor128.wf (Xor128.srandXor128 0 (Xor128.mkState 0 0 5 9)) /\
  (Xor128.srandXor128 0 (Xor128.mkState 0 0 5 9) = xor128_zero
   <-> 0 = 0 /\ 0 = 0 /\ 0 = 0).
Proof.
  apply (srandXor128_dead_iff 0 (Xor128.mkState 0 0 5 9)).
  - unfold Xor128.wf, is_u32. simpl. lia.
  - unfold is_u32. lia.
Defined.

(** ** Context resolution *)

(** X16. [currentDatabaseContext] returns the registered database
    context when there is one and the current thread cast to a database
    context otherwise; it throws the cast failure exactly when both are
    null. [currentSqlDatabase(id)] then throws that failure without a
    lookup, and otherwise is [getSqlDatabase(id)] of the chosen context,
    value or exception. *)
Theorem currentSqlDatabase_resolution {A D Db : Type}
    (getSqlDatabase : D -> Z -> outcome Db)
    (registered : option D) (current : Context.thread A D) (id : Z) :
  ((exists what,
       Context.currentDatabaseContext registered current = Thrown what)
   <-> registered = None /\ Context.as_database_context current = None) /\
  (registered = None -> Context.as_database_context current = None ->
   Context.currentSqlDatabase getSqlDatabase registered current id
   = Thrown Context.cast_failure) /\
  (forall c, registered = Some c ->
     Context.currentDatabaseContext registered current = Returned c /\
     Context.currentSqlDatabase getSqlDatabase registered current id
     = getSqlDatabase c id) /\
  (forall c, registered = None ->
     Context.as_database_context current = Some c ->
     Context.currentDatabaseContext registered current = Returned c /\
     Context.currentSqlDatabase getSqlDatabase registered current id
     = getSqlDatabase c id).
Proof.
  unfold Context.currentSqlDatabase, Context.currentDatabaseContext.
  split; [ | split; [ | split ] ].
  - destruct registered as [c | ];
      [ | destruct (Context.as_database_context current) as [c | ] ].
    + split; [ intros [what H]; discriminate | intros [H _]; discriminate ].
    + split; [ intros [what H]; discriminate | intros [_ H]; discriminate ].
    + split; [ auto | intros _; eexists; reflexivity ].
  - intros -> ->. reflexivity.
  - intros c ->. split; reflexivity.
  - intros c -> ->. split; reflexivity.
Qed.

(** X17. [currentContext] throws exactly when the module is neither
    [Thread] nor [Epoll], or it is [Thread] and the current thread is not
    a [TActionThread]; under [Thread] the pointer it returns is never
    null, under [Epoll] it is the worker instance as it is. *)
Theorem currentContext_resolution {A D : Type}
    (mpm : Context.MultiProcessingModule)
    (current : Context.thread A D) (worker : option A) :
  ((exists what, Context.currentContext mpm current worker = Thrown what)
   <-> mpm = Context.OtherModule
       \/ (mpm = Context.Thread /\ Context.as_action_thread current = None))
  /\ (forall p, mpm = Context.Thread ->
        Context.currentContext mpm current worker = Returned p ->
        p <> None /\ p = Context.as_action_thread current)
  /\ (mpm = Context.Epoll ->
      Context.currentContext mpm current worker = Returned worker).
Proof.
  unfold Context.currentContext. split; [ | split ].
  - destruct mpm; [ destruct (Context.as_action_thread current) | | ].
    + split; [ intros [w H]; discriminate | ].
      intros [H | [_ H]]; discriminate.
    + split; [ auto | intros _; eexists; reflexivity ].
    + split; [ intros [w H]; discriminate | ].
      intros [H | [H _]]; discriminate.
    + split; [ auto | intros _; eexists; reflexivity ].
  - intros p ->. destruct (Context.as_action_thread current) as [c | ].
    + intros H. injection H as <-. split; [ discriminate | reflexivity ].
    + discriminate.
  - intros ->. reflexivity.
Qed.

(** ** The further properties on concrete inputs *)

Lemma lz4Compress_invocations_witness :
  exists (r : list byte) (calls : list call),
    lz4Compress LiteralLZ4.LZ4_compressBound LiteralLZ4.LZ4_compress_fast
                [x01; x02; x03] 3 1 = Some (r, calls) /\
    forall (i : nat) (c : call),
      nth_error calls i = Some c ->
      0 < c_srclen c <= LZ4_BLOCKSIZE /\ c_level c = 1.
Proof.
  destruct (lz4Compress_invocations LiteralLZ4.LZ4_compressBound
              LiteralLZ4.LZ4_compress_fast [x01; x02; x03] 3 1)
    as (r & calls & Hrun & Hall).
  - unfold is_int, INT_MIN, INT_MAX. lia.
  - exists r, calls. split; [ exact Hrun | ].
    intros i c Hnth. destruct (Hall i c Hnth) as (H1 & _ & _ & _ & H5).
    split; assumption.
Defined.

Lemma lz4Compress_stops_at_failure_witness :
  exists (r : list byte) (good bad : list call),
    lz4Compress LiteralLZ4.LZ4_compressBound failing_compress_fast
                [x41; x42] 2 1 = Some (r, good ++ bad) /\
    Forall (fun c => ~ call_failed failing_compress_fast c) good /\
    (bad = [] \/
     exists c, bad = [c] /\ call_failed failing_compress_fast c /\ r = []).
Proof.
  apply (lz4Compress_stops_at_failure LiteralLZ4.LZ4_compressBound
           failing_compress_fast [x41; x42] 2 1).
  unfold is_int, INT_MIN, INT_MAX. lia.
Defined.

Lemma lz4Compress_empty_iff_witness :
  exists (r : list byte) (calls : list call),
    lz4Compress LiteralLZ4.LZ4_compressBound failing_compress_fast
                [x41; x42] 2 1 = Some (r, calls) /\
    (r = [] <->
     LiteralLZ4.LZ4_compressBound 2 < 1
     \/ Exists (call_failed failing_compress_fast) calls).
Proof.
  apply (lz4Compress_empty_iff LiteralLZ4.LZ4_compressBound
           failing_compress_fast [x41; x42] 2 1).
  - unfold is_int, INT_MIN, INT_MAX. lia.
  - lia.
Defined.

Lemma lz4Compress_stream_length_witness :
  exists (r : list byte) (calls : list call),
    lz4Compress LiteralLZ4.LZ4_compressBound LiteralLZ4.LZ4_compress_fast
                [x01; x02; x03] 3 1 = Some (r, calls) /\
    Z.of_nat (length r) = 8.
Proof.
  destruct (lz4Compress_stream_length LiteralLZ4.LZ4_compressBound
              LiteralLZ4.LZ4_compress_fast [x01; x02; x03] 3 1)
    as (r & calls & Hrun & Hlen).
  - unfold is_int, INT_MIN, INT_MAX. lia.
  - exists r, calls. split; [ exact Hrun | ].
    assert (Hcalls : calls = [mkCall [x01; x02; x03] 3 19 1]).
    { vm_compute in Hrun. inversion Hrun. reflexivity. }
    rewrite Hlen.
    + rewrite Hcalls. reflexivity.
    + rewrite Hcalls. constructor; [ | constructor ].
      vm_compute. intros H. apply H. reflexivity.
Defined.

Lemma lz4Uncompress_nonpositive_length_witness :
  lz4Uncompress LiteralLZ4.LZ4_compressBound LiteralLZ4.LZ4_decompress_safe
                [x04; x00; x00; x00] (-1) = Some ([], []).
Proof.
  apply (lz4Uncompress_nonpositive_length LiteralLZ4.LZ4_compressBound
           LiteralLZ4.LZ4_decompress_safe [x04; x00; x00; x00] (-1)).
  lia.
Defined.

Lemma literal_three_bytes_ok :
  Forall (block_ok LiteralLZ4.LZ4_compressBound LiteralLZ4.LZ4_compress_fast
                   LiteralLZ4.LZ4_decompress_safe)
         [mkCall [x01; x02; x03] 3 19 1].
Proof.
  constructor; [ | constructor ].
  unfold block_ok, call_failed, within_block_bound, block_round_trip.
  vm_compute. split; [ | split; [ | split; reflexivity ] ].
  - intros H. apply H. reflexivity.
  - discriminate.
Qed.

Lemma lz4Uncompress_stray_bytes_witness :
  exists log,
    LiteralLZ4.lz4Uncompress_ba
      (concat (map (frame LiteralLZ4.LZ4_compress_fast)
                   [mkCall [x01; x02; x03] 3 19 1]) ++ [x09; x09])
    = Some ([], log).
Proof.
  apply (lz4Uncompress_stray_bytes LiteralLZ4.LZ4_compressBound
           LiteralLZ4.LZ4_compress_fast LiteralLZ4.LZ4_decompress_safe
           [mkCall [x01; x02; x03] 3 19 1] [x09; x09]).
  - exact literal_three_bytes_ok.
  - constructor; [ simpl; lia | constructor ].
  - simpl. lia.
  - vm_compute. discriminate.
Defined.

(** The reference codec compresses every input [LZ4_compressBound]
    accepts, each block successfully, into a stream little longer than
    the input. *)
Lemma literal_compress_ok (data : list byte) (level : Z) :
  Z.of_nat (length data) <= LiteralLZ4.LZ4_MAX_INPUT_SIZE ->
  exists (stream : list byte) (calls : list call),
    LiteralLZ4.lz4Compress_ba data level = Some (stream, calls) /\
    Forall (block_ok LiteralLZ4.LZ4_compressBound
                     LiteralLZ4.LZ4_compress_fast
                     LiteralLZ4.LZ4_decompress_safe) calls /\
    Z.of_nat (length stream) <= Z.of_nat (length data) + 4118 * 2016.
Proof.
  unfold LiteralLZ4.LZ4_MAX_INPUT_SIZE. intros HN.
  set (N := Z.of_nat (length data)) in *.
  assert (Hint : is_int N) by (unfold is_int, INT_MIN, INT_MAX; lia).
  destruct (lz4Compress_spec LiteralLZ4.LZ4_compressBound
              LiteralLZ4.LZ4_compress_fast data N level Hint)
    as (r & m & Hrun & Hle & Hres).
  cbn zeta in Hrun, Hres.
  assert (Hall : Forall (fun c =>
              block_ok LiteralLZ4.LZ4_compressBound
                       LiteralLZ4.LZ4_compress_fast
                       LiteralLZ4.LZ4_decompress_safe c
              /\ Z.of_nat (length (frame LiteralLZ4.LZ4_compress_fast c))
                 <= Z.of_nat (length (c_src c)) + 4118)
              (map (spec_block LiteralLZ4.LZ4_compressBound data N level)
                   (seq 0 m))).
  { apply Forall_forall. intros c Hin.
    apply in_map_iff in Hin. destruct Hin as (i & Hc & Hi).
    apply in_seq in Hi. subst c. apply literal_spec_block_ok. fold N. lia. }
  exists r, (map (spec_block LiteralLZ4.LZ4_compressBound data N level)
                 (seq 0 m)).
  split; [ exact Hrun | ]. split.
  - apply Forall_impl with (2 := Hall). intros c [H _]. exact H.
  - destruct Hres as [(_ & _ & Hr) | [(_ & _ & Hr) | (_ & _ & Hr & Hm)]].
    + rewrite Hr. cbn [length]. lia.
    + rewrite Hr. cbn [length]. lia.
    + subst m.
      fold (spec_blocks LiteralLZ4.LZ4_compressBound data N level)
        in Hall, Hr.
      pose proof (frames_length_bound LiteralLZ4.LZ4_compress_fast 4118
                    (spec_blocks LiteralLZ4.LZ4_compressBound data N level))
        as Hbnd.
      unfold N in Hbnd at 2. rewrite spec_blocks_concat in Hbnd.
      rewrite spec_blocks_length in Hbnd. fold N in Hbnd.
      assert (Hcount : Z.of_nat (spec_block_count N) <= 2016).
      { unfold spec_block_count. change LZ4_BLOCKSIZE with 1048576.
        assert (0 <= (N + 1048576 - 1) / 1048576)
          by (apply Z.div_pos; lia).
        rewrite Z2Nat.id by assumption.
        Z.div_mod_to_equations. lia. }
      rewrite Hr.
      assert (Z.of_nat (length (concat (map (frame LiteralLZ4.LZ4_compress_fast)
                 (spec_blocks LiteralLZ4.LZ4_compressBound data N level))))
              <= N + 4118 * Z.of_nat (spec_block_count N)).
      { apply Hbnd. apply Forall_impl with (2 := Hall). intros c [_ H]. exact H. }
      lia.
Qed.

Lemma literal_compress_ba_eq (data : list byte) (level : Z) :
  LiteralLZ4.lz4Compress_ba data level
  = lz4Compress_ba LiteralLZ4.LZ4_compressBound LiteralLZ4.LZ4_compress_fast
                   data level.
Proof. reflexivity. Qed.

Lemma full_block_input_length :
  Z.of_nat (length full_block_input) = 1048576.
Proof.
  unfold full_block_input. rewrite repeat_length. apply Z2Nat.id. lia.
Qed.

Lemma lz4_streams_concatenate_witness :
  exists (sa sb : list byte) (ca cb : list call) (log : list prefix),
    lz4Compress_ba LiteralLZ4.LZ4_compressBound LiteralLZ4.LZ4_compress_fast
                   full_block_input 1 = Some (sa, ca) /\
    lz4Compress_ba LiteralLZ4.LZ4_compressBound LiteralLZ4.LZ4_compress_fast
                   [x02; x03] 1 = Some (sb, cb) /\
    lz4Uncompress_ba LiteralLZ4.LZ4_compressBound
                     LiteralLZ4.LZ4_decompress_safe (sa ++ sb)
    = Some (full_block_input ++ [x02; x03], log).
Proof.
  pose proof full_block_input_length as Hlen.
  destruct (lz4_streams_concatenate LiteralLZ4.LZ4_compressBound
              LiteralLZ4.LZ4_compress_fast LiteralLZ4.LZ4_decompress_safe
              full_block_input [x02; x03] 1)
    as (sa & sb & ca & cb & Hra & Hrb & _ & Hdec).
  - rewrite Hlen. unfold INT_MAX. lia.
  - vm_compute. discriminate.
  - intros _. rewrite Hlen. vm_compute. discriminate.
  - intros _. vm_compute. discriminate.
  - right. rewrite Hlen. change LZ4_BLOCKSIZE with 1048576. lia.
  - destruct (literal_compress_ok full_block_input 1)
      as (sa' & ca' & Hra' & Hoka & Hbnda).
    { rewrite Hlen. vm_compute. discriminate. }
    destruct (literal_compress_ok [x02; x03] 1)
      as (sb' & cb' & Hrb' & Hokb & Hbndb).
    { vm_compute. discriminate. }
    rewrite literal_compress_ba_eq in Hra', Hrb'.
    assert (Ea : Some (sa', ca') = Some (sa, ca))
      by (rewrite <- Hra', <- Hra; reflexivity).
    assert (Eb : Some (sb', cb') = Some (sb, cb))
      by (rewrite <- Hrb', <- Hrb; reflexivity).
    injection Ea as Esa Eca. injection Eb as Esb Ecb.
    subst sa' ca' sb' cb'.
    rewrite Hlen in Hbnda. cbn [length] in Hbndb.
    destruct (Hdec Hoka Hokb) as [log Hlog].
    { rewrite length_app, Nat2Z.inj_add. unfold INT_MAX. lia. }
    exists sa, sb, ca, cb, log.
    split; [ exact Hra | ]. split; [ exact Hrb | exact Hlog ].
Defined.

Lemma lz4Uncompress_output_bound_witness :
  exists (r : list byte) (log : list prefix),
    lz4Uncompress LiteralLZ4.LZ4_compressBound LiteralLZ4.LZ4_decompress_safe
                  [x04; x00; x00; x00; x30; x01; x02; x03] 8 = Some (r, log) /\
    Z.of_nat (length r) <= LZ4_BLOCKSIZE * Z.of_nat (length log) /\
    (r <> [] -> 5 * Z.of_nat (length log) <= 8 + 1).
Proof.
  apply (lz4Uncompress_output_bound LiteralLZ4.LZ4_compressBound
           LiteralLZ4.LZ4_decompress_safe
           [x04; x00; x00; x00; x30; x01; x02; x03] 8).
  intros src n. unfold LiteralLZ4.LZ4_decompress_safe.
  change LZ4_BLOCKSIZE with 1048576.
  destruct src as [ | token rest]; [ simpl; lia | ].
  destruct (if byte_to_Z token / 16 =? 15
            then LiteralLZ4.get_length rest 15
            else Some (byte_to_Z token / 16, rest)) as [[k lits] | ];
    [ | simpl; lia ].
  destruct (Z.eqb_spec (Z.of_nat (length lits)) k); [ | simpl; lia ].
  destruct (Z.leb_spec k 1048576); simpl; lia.
Defined.

Lemma lz4Uncompress_decompress_failure_empty_witness :
  exists (r : list byte) (log : list prefix),
    lz4Uncompress LiteralLZ4.LZ4_compressBound LiteralLZ4.LZ4_decompress_safe
                  [x02; x00; x00; x00; x10; x07; x02; x00; x00; x00; x20; x07]
                  12 = Some (r, log) /\ r = [].
Proof.
  destruct (lz4Uncompress_decompress_failure_empty
              LiteralLZ4.LZ4_compressBound LiteralLZ4.LZ4_decompress_safe
              [x02; x00; x00; x00; x10; x07; x02; x00; x00; x00; x20; x07] 12)
    as (r & log & Hrun & Hfail).
  exists r, log. split; [ exact Hrun | ].
  apply Hfail.
  assert (Hlog : log = [mkPrefix 4 2; mkPrefix 10 2]).
  { vm_compute in Hrun. inversion Hrun. reflexivity. }
  rewrite Hlog. apply Exists_cons_tl. apply Exists_cons_hd.
  vm_compute. discriminate.
Defined.

Lemma currentSqlDatabase_resolution_witness :
  Context.currentSqlDatabase
    (fun (c : nat) (id : Z) =>
       if id <? 0 then Thrown "invalid database id"%string
       else Returned (c, id))
    None (Context.mkThread (@None unit) (Some 5%nat)) (-1)
  = Thrown "invalid database id"%string.
Proof.
  destruct (currentSqlDatabase_resolution
              (fun (c : nat) (id : Z) =>
                 if id <? 0 then Thrown "invalid database id"%string
                 else Returned (c, id))
              None (Context.mkThread (@None unit) (Some 5%nat)) (-1))
    as (_ & _ & _ & Hthread).
  destruct (Hthread 5%nat) as [_ Hsql]; [ reflexivity | reflexivity | ].
  rewrite Hsql. reflexivity.
Defined.

Lemma currentContext_resolution_witness :
  exists what,
    Context.currentContext Context.Thread
      (Context.mkThread (@None nat) (@None nat)) (Some 1%nat)
    = Thrown what.
Proof.
  destruct (currentContext_resolution Context.Thread
              (Context.mkThread (@None nat) (@None nat)) (Some 1%nat))
    as (Hthrow & _ & _).
  apply Hthrow. right. split; reflexivity.
Defined.
